(** * spi_scale_reader: the MCP3301 readings dumper and its SPI layer

    A shallow embedding of [src/spi.c] and [src/main.c], followed by the
    properties proved about it.

    Machine model.  [int] is a 32-bit two's-complement integer, [int16_t]
    a 16-bit one, [size_t] an unsigned 64-bit one (Linux LP64), [uint8_t]
    a [Byte.byte].  Integer values live in [Z]; every place where the C
    code converts to a narrower type, or where an [int] operation can
    leave the range, the wrap-around is written out.  [double] is IEEE 754
    binary64, i.e. Rocq's primitive [float].

    System calls ([open], [ioctl], [read], [close]) and [printf] are
    events of a trace; an environment chooses the result of each call.
    An operation whose behaviour C leaves undefined for lack of memory
    safety (a read or a store outside an array, a division by zero) has
    no result ([None]). *)

From Stdlib Require Import ZArith Lia Bool String.
From Stdlib.Strings Require Import Byte.
From Stdlib Require Import Reals Lra.
From Stdlib Require PrimFloat FloatOps FloatAxioms SpecFloat Uint63.
From stdpp Require Import base list.

Local Open Scope Z_scope.

(* ===================================================================== *)
(** ** Machine integers *)

(** Conversion to a signed [w]-bit integer: reduction modulo [2^w] into
    [-2^(w-1) .. 2^(w-1)-1]. *)
Definition wrap_signed (w x : Z) : Z :=
  (x + 2 ^ (w - 1)) mod 2 ^ w - 2 ^ (w - 1).

Definition to_int16 (x : Z) : Z := wrap_signed 16 x.
Definition to_int (x : Z) : Z := wrap_signed 32 x.
Definition to_size_t (x : Z) : Z := x mod 2 ^ 64.

Definition INT_MAX : Z := 2 ^ 31 - 1.
Definition INT_MIN : Z := - 2 ^ 31.

(** The value of a [uint8_t] after integer promotion. *)
Definition byte_val (b : byte) : Z := Z.of_N (Byte.to_N b).

(* ===================================================================== *)
(** ** The operating system and the SPI device, as seen by the program *)

(** spi.h: [spi_settings_t]. *)
Record spi_settings_t := mk_settings {
  mode : Z;
  is_lsb_first : Z;
  bits_per_word : Z;
  max_speed_hz : Z
}.

(** The eight [ioctl] requests of spi.c; a write request carries the value
    that is passed by pointer. *)
Inductive ioctl_req :=
| SPI_IOC_RD_MODE
| SPI_IOC_WR_MODE (v : Z)
| SPI_IOC_RD_LSB_FIRST
| SPI_IOC_WR_LSB_FIRST (v : Z)
| SPI_IOC_RD_BITS_PER_WORD
| SPI_IOC_WR_BITS_PER_WORD (v : Z)
| SPI_IOC_RD_MAX_SPEED_HZ
| SPI_IOC_WR_MAX_SPEED_HZ (v : Z).

(** What the process does that is visible from outside: system calls with
    their results, and lines written to standard output ([printf] with
    its format string and integer arguments). *)
Inductive event :=
| EvOpen (path : string) (ret : Z)
| EvIoctl (fd : Z) (req : ioctl_req) (ret : Z)
| EvRead (fd : Z) (ret : Z)
| EvClose (fd : Z)
| EvPrintf (format : string) (args : list Z).

(** The environment decides the result of every system call.  Each answer
    may depend on everything that happened before (the trace), so any
    deterministic kernel and device is covered.
    - [env_open]: the return value of [open(path, O_RDWR)];
    - [env_ioctl]: the return value of [ioctl(fd, req, ...)];
    - [env_read]: the return value of [read(fd, out, 2)] together with the
      contents of the two-byte buffer [out] after the call (the bytes
      delivered, and for a short or failed read whatever the memory holds
      in the positions that were not filled). *)
Record environment := mk_env {
  env_open : list event -> string -> Z;
  env_ioctl : list event -> Z -> ioctl_req -> Z;
  env_read : list event -> Z -> Z * (byte * byte)
}.

(** Program-visible state: the configuration registers of the SPI device,
    the file-static [spi_settings_orig] of spi.c, and the trace so far
    (most recent event last). *)
Record world := mk_world {
  device : spi_settings_t;
  spi_settings_orig : spi_settings_t;
  trace : list event
}.

(** A small state monad over [world]. *)
Definition M (A : Type) : Type := world -> A * world.

Definition pure {A} (a : A) : M A := fun w => (a, w).
Definition bind {A B} (m : M A) (k : A -> M B) : M B :=
  fun w => k (fst (m w)) (snd (m w)).

Declare Scope spi_scope.
Delimit Scope spi_scope with spi.
Notation "x <- m ;; k" := (bind m (fun x => k))
  (at level 100, m at next level, right associativity) : spi_scope.
Notation "m ;;; k" := (bind m (fun _ => k))
  (at level 100, right associativity) : spi_scope.

Definition emit (e : event) : M unit :=
  fun w => (tt, mk_world (device w) (spi_settings_orig w) (trace w ++ [e])).

Definition printf (format : string) (args : list Z) : M unit :=
  emit (EvPrintf format args).

Definition get_orig : M spi_settings_t := fun w => (spi_settings_orig w, w).
Definition set_orig (s : spi_settings_t) : M unit :=
  fun w => (tt, mk_world (device w) s (trace w)).
Definition get_device : M spi_settings_t := fun w => (device w, w).

(** What a successful request does to the device: a write request
    replaces one configuration register, a read request nothing. *)
Definition ioctl_effect (req : ioctl_req) (d : spi_settings_t) : spi_settings_t :=
  match req with
  | SPI_IOC_WR_MODE v =>
      mk_settings v (is_lsb_first d) (bits_per_word d) (max_speed_hz d)
  | SPI_IOC_WR_LSB_FIRST v =>
      mk_settings (mode d) v (bits_per_word d) (max_speed_hz d)
  | SPI_IOC_WR_BITS_PER_WORD v =>
      mk_settings (mode d) (is_lsb_first d) v (max_speed_hz d)
  | SPI_IOC_WR_MAX_SPEED_HZ v =>
      mk_settings (mode d) (is_lsb_first d) (bits_per_word d) v
  | _ => d
  end.

Section Program.

Variable env : environment.

(** [open(path, O_RDWR)]. *)
Definition sys_open (path : string) : M Z :=
  fun w =>
    let fd := env_open env (trace w) path in
    (fd, mk_world (device w) (spi_settings_orig w)
                  (trace w ++ [EvOpen path fd])).

(** [close(fd)]; spi.c ignores its result. *)
Definition sys_close (fd : Z) : M unit := emit (EvClose fd).

(** [ioctl(fd, req, arg)].  The device is the register file the
    specification's settings round-trip describes: a request takes effect
    when the call returns 0 and leaves the device as it was otherwise. *)
Definition sys_ioctl (fd : Z) (req : ioctl_req) : M Z :=
  fun w =>
    let r := env_ioctl env (trace w) fd req in
    (r, mk_world (if r =? 0 then ioctl_effect req (device w) else device w)
                 (spi_settings_orig w)
                 (trace w ++ [EvIoctl fd req r])).

(* ===================================================================== *)
(** ** spi.c *)

(** The [get_spi_*] helpers return the [ioctl] result together with the
    content of the variable their pointer argument designates: the value
    read from the device on success, the previous content [cur] otherwise. *)
Definition get_spi_mode (fd cur : Z) : M (Z * Z) :=
  (r <- sys_ioctl fd SPI_IOC_RD_MODE ;;
   d <- get_device ;;
   pure (r, if r =? 0 then mode d else cur))%spi.

Definition set_spi_mode (fd mode : Z) : M Z :=
  sys_ioctl fd (SPI_IOC_WR_MODE mode).

Definition get_spi_is_lsb_first (fd cur : Z) : M (Z * Z) :=
  (r <- sys_ioctl fd SPI_IOC_RD_LSB_FIRST ;;
   d <- get_device ;;
   pure (r, if r =? 0 then is_lsb_first d else cur))%spi.

Definition set_spi_is_lsb_first (fd is_lsb_first : Z) : M Z :=
  sys_ioctl fd (SPI_IOC_WR_LSB_FIRST is_lsb_first).

Definition get_spi_bits_per_word (fd cur : Z) : M (Z * Z) :=
  (r <- sys_ioctl fd SPI_IOC_RD_BITS_PER_WORD ;;
   d <- get_device ;;
   pure (r, if r =? 0 then bits_per_word d else cur))%spi.

Definition set_spi_bits_per_word (fd bits_per_word : Z) : M Z :=
  sys_ioctl fd (SPI_IOC_WR_BITS_PER_WORD bits_per_word).

Definition get_spi_max_speed_hz (fd cur : Z) : M (Z * Z) :=
  (r <- sys_ioctl fd SPI_IOC_RD_MAX_SPEED_HZ ;;
   d <- get_device ;;
   pure (r, if r =? 0 then max_speed_hz d else cur))%spi.

Definition set_spi_max_speed_hz (fd speed : Z) : M Z :=
  sys_ioctl fd (SPI_IOC_WR_MAX_SPEED_HZ speed).

(** spi.c: [spi_read_settings].  [settings] is the content of the struct
    the pointer designates on entry; the result carries its content on
    exit next to the return value. *)
Definition spi_read_settings (fd : Z) (settings : spi_settings_t)
    : M (Z * spi_settings_t) :=
  (r <- get_spi_mode fd (mode settings) ;;
   let settings := mk_settings (snd r) (is_lsb_first settings)
                     (bits_per_word settings) (max_speed_hz settings) in
   if negb (0 =? fst r) then
     printf "Could not read SPI mode: code %d\n" [fst r] ;;;
     pure (fst r, settings)
   else
   r <- get_spi_is_lsb_first fd (is_lsb_first settings) ;;
   let settings := mk_settings (mode settings) (snd r)
                     (bits_per_word settings) (max_speed_hz settings) in
   if negb (0 =? fst r) then
     printf "Could not read SPI mode: code %d\n" [fst r] ;;;
     pure (fst r, settings)
   else
   r <- get_spi_bits_per_word fd (bits_per_word settings) ;;
   let settings := mk_settings (mode settings) (is_lsb_first settings)
                     (snd r) (max_speed_hz settings) in
   if negb (0 =? fst r) then
     printf "Could not read SPI mode: code %d\n" [fst r] ;;;
     pure (fst r, settings)
   else
   r <- get_spi_max_speed_hz fd (max_speed_hz settings) ;;
   let settings := mk_settings (mode settings) (is_lsb_first settings)
                     (bits_per_word settings) (snd r) in
   if negb (0 =? fst r) then
     printf "Could not read SPI max speed (hz): code %d\n" [fst r] ;;;
     pure (fst r, settings)
   else
     pure (0, settings))%spi.

(** spi.c: [spi_write_settings]. *)
Definition spi_write_settings (fd : Z) (settings : spi_settings_t) : M Z :=
  (ret <- set_spi_mode fd (mode settings) ;;
   if negb (0 =? ret) then
     printf "Could not set SPI mode: code %d\n" [ret] ;;;
     pure ret
   else
   ret <- set_spi_is_lsb_first fd (is_lsb_first settings) ;;
   if negb (0 =? ret) then
     printf "Could not set SPI mode: code %d\n" [ret] ;;;
     pure ret
   else
   ret <- set_spi_bits_per_word fd (bits_per_word settings) ;;
   if negb (0 =? ret) then
     printf "Could not set SPI mode: code %d\n" [ret] ;;;
     pure ret
   else
   ret <- set_spi_max_speed_hz fd (max_speed_hz settings) ;;
   if negb (0 =? ret) then
     printf "Could not set SPI max speed (hz): code %d\n" [ret] ;;;
     pure ret
   else
     pure 0)%spi.

(** spi.c: [spi_init].  [spi_read_settings] is handed the address of
    [spi_settings_orig], so whatever it stores lands there, also when it
    fails part of the way. *)
Definition spi_init (device_name : string) (settings : spi_settings_t) : M Z :=
  (fd <- sys_open device_name ;;
   if 0 >? fd then
     printf "spi_init: open failed with retval %d\n" [fd] ;;;
     pure fd
   else
   orig <- get_orig ;;
   r <- spi_read_settings fd orig ;;
   set_orig (snd r) ;;;
   if negb (0 =? fst r) then
     printf "spi_init: failed to read SPI settings, code %d\n" [fst r] ;;;
     sys_close fd ;;;
     pure (-1)
   else
   ret <- spi_write_settings fd settings ;;
   if negb (0 =? ret) then
     printf "spi_init: failed to write SPI settings, code %d\n" [ret] ;;;
     sys_close fd ;;;
     pure (-1)
   else
     pure fd)%spi.

(** [read(fd, out, 2)]. *)
Definition sys_read (fd : Z) : M (Z * (byte * byte)) :=
  fun w =>
    let r := env_read env (trace w) fd in
    (r, mk_world (device w) (spi_settings_orig w)
                 (trace w ++ [EvRead fd (fst r)])).

(** spi.c: [spi_read_two_bytes]. *)
Definition spi_read_two_bytes (fd : Z) : M (Z * (byte * byte)) :=
  sys_read fd.

(* ===================================================================== *)
(** ** main.c: MCP3301 measurement routines *)

(** main.c: [read_mcp3301_single].  [data] is an [int16_t]: each compound
    assignment computes in [int] and converts back to 16 bits. *)
Definition read_mcp3301_single (fd : Z) : M Z :=
  (r <- spi_read_two_bytes fd ;;
   let raw_data0 := byte_val (fst (snd r)) in
   let raw_data1 := byte_val (snd (snd r)) in
   let data := 0 in
   if negb (2 =? fst r) then
     printf "read_mcp3301_single: failed to read value\n" [] ;;;
     pure (to_int16 0x8001)
   else
     let data := to_int16 (Z.lor data (Z.shiftl (Z.land raw_data0 0x0F) 8)) in
     let data := to_int16 (Z.lor data raw_data1) in
     let sign := if negb (Z.land raw_data0 0x10 =? 0) then 1 else 0 in
     let data := if negb (sign =? 0) then to_int16 (data - 4096) else data in
     pure data)%spi.

End Program.

(* ===================================================================== *)
(** ** [double] arithmetic *)

(** The operations on [double] that main.c uses.  The program is written
    once over this interface and read at two instances: IEEE 754 binary64
    (what the compiled program computes) and the real numbers (what the
    formulas mean when nothing is rounded). *)
Class DoubleOps (D : Type) := {
  d_of_Z : Z -> D;        (* conversion of an integer value to double *)
  d_add : D -> D -> D;
  d_sub : D -> D -> D;
  d_div : D -> D -> D;
  d_pow2 : D -> D;        (* pow(x, 2) of libm *)
  d_sqrt : D -> D         (* sqrt(x) of libm *)
}.

(** Conversion of an integer to binary64: the nearest double, ties to
    even (the integers of this program are below [2^64]; the primitive
    conversion covers the magnitudes below [2^63], the specification of
    binary64 rounding the rest). *)
Definition b64_of_nonneg (z : Z) : PrimFloat.float :=
  if z <? 2 ^ 63 then PrimFloat.of_uint63 (Uint63.of_Z z)
  else FloatOps.SF2Prim
         (SpecFloat.binary_normalize FloatOps.prec FloatOps.emax z 0 false).

Definition b64_of_Z (z : Z) : PrimFloat.float :=
  if z <? 0 then PrimFloat.opp (b64_of_nonneg (- z)) else b64_of_nonneg z.

(** binary64.  libm is not part of the repository: [pow(x, 2)] is taken
    to be the correctly rounded square. *)
#[export] Instance binary64 : DoubleOps PrimFloat.float := {
  d_of_Z := b64_of_Z;
  d_add := PrimFloat.add;
  d_sub := PrimFloat.sub;
  d_div := PrimFloat.div;
  d_pow2 := fun x => PrimFloat.mul x x;
  d_sqrt := PrimFloat.sqrt
}.

(** Exact real arithmetic. *)
Definition exact_reals : DoubleOps R := {|
  d_of_Z := IZR;
  d_add := Rplus;
  d_sub := Rminus;
  d_div := Rdiv;
  d_pow2 := fun x => Rmult x x;
  d_sqrt := R_sqrt.sqrt
|}.

(* ===================================================================== *)
(** ** main.c: statistics helpers and the filter buffer *)

(** main.c: [filter_buffer_t].  [data] is the allocated array, [data_len]
    a [size_t], [location] an [int]. *)
Record filter_buffer_t := mk_fb {
  data : list Z;
  data_len : Z;
  location : Z
}.

Definition sizeof_int : Z := 4.

(** main.c: [fb_new].  The allocation is assumed to succeed; it has room
    for as many [int]s as fit in the [sizeof(int) * len] bytes requested
    (a [size_t] product), all zeroed by [memset]. *)
Definition fb_new (len : Z) : filter_buffer_t :=
  {| data := replicate (Z.to_nat (to_size_t (sizeof_int * len) / sizeof_int)) 0;
     data_len := len;
     location := 0 |}.

(** main.c: [fb_incr_loc].  [fb->location + 1] is an [int] sum; it is
    converted to [size_t] for the [%], and the remainder is converted back
    to [int].  There is no result when [data_len] is 0 (division by zero). *)
Definition fb_incr_loc (fb : filter_buffer_t) : option filter_buffer_t :=
  if data_len fb =? 0 then None
  else Some {| data := data fb;
               data_len := data_len fb;
               location :=
                 to_int (to_size_t (to_int (location fb + 1)) mod data_len fb) |}.

(** main.c: [fb_push].  There is no result when [location] is not an index
    of the allocated array (the store would land outside it). *)
Definition fb_push (fb : filter_buffer_t) (val : Z) : option filter_buffer_t :=
  if (0 <=? location fb) && (location fb <? Z.of_nat (length (data fb))) then
    fb_incr_loc {| data := <[Z.to_nat (location fb) := val]> (data fb);
                   data_len := data_len fb;
                   location := location fb |}
  else None.

(** Reading [a[i]] for an [int] index; no result outside the array. *)
Definition array_get (a : list Z) (i : Z) : option Z :=
  if 0 <=? i then a !! Z.to_nat i else None.

(** The loop of [filter_avg], started at index [i] with the running
    [max], [min] and [sum].  [i] is an [int] compared against the [size_t]
    [data_len]; [sum] is an [int]. *)
Fixpoint filter_avg_loop (fuel : nat) (fb : filter_buffer_t)
    (i max min sum : Z) : option (Z * Z * Z) :=
  match fuel with
  | O => None
  | S fuel' =>
      if to_size_t i <? data_len fb then
        match array_get (data fb) i with
        | None => None
        | Some d =>
            let max := if d >? max then d else max in
            let min := if d <? min then d else min in
            let sum := to_int (sum + d) in
            filter_avg_loop fuel' fb (to_int (i + 1)) max min sum
        end
      else Some (max, min, sum)
  end.

Section Double.

Context {D : Type} {ops : DoubleOps D}.

(** main.c: [filter_avg].  Every iteration of the loop reads one more
    slot of [data], so [length data] iterations are all it can make before
    it leaves the array. *)
Definition filter_avg (fb : filter_buffer_t) : option D :=
  match array_get (data fb) 0 with
  | None => None
  | Some d0 =>
      match filter_avg_loop (S (length (data fb))) fb 1 d0 d0 d0 with
      | None => None
      | Some (max, min, sum) =>
          let sum := to_int (to_int (sum - max) - min) in
          Some (d_div (d_of_Z sum) (d_of_Z (to_size_t (data_len fb - 2))))
      end
  end.

(** The loops of [average16] and [stdev16] have one shape:
    [for (int i = 0; i < cnt; i++) acc += term(vals[i]);] with [i] and
    [cnt] both [int]s.  [sum_loop16] is that loop entered at index [i]. *)
Fixpoint sum_loop16 (fuel : nat) (vals : list Z) (cnt i : Z)
    (term : Z -> D) (acc : D) : option D :=
  match fuel with
  | O => None
  | S fuel' =>
      if i <? cnt then
        match array_get vals i with
        | None => None
        | Some v => sum_loop16 fuel' vals cnt (to_int (i + 1)) term
                      (d_add acc (term v))
        end
      else Some acc
  end.

(** main.c: [average16]: [val += vals[i]], then [val / cnt]. *)
Definition average16 (vals : list Z) (cnt : Z) : option D :=
  match sum_loop16 (S (length vals)) vals cnt 0 d_of_Z (d_of_Z 0) with
  | None => None
  | Some val => Some (d_div val (d_of_Z cnt))
  end.

(** main.c: [stdev16]: [stdev += pow(vals[i] - avg, 2)], then
    [sqrt(stdev / cnt)]. *)
Definition stdev16 (vals : list Z) (cnt : Z) : option D :=
  match average16 vals cnt with
  | None => None
  | Some avg =>
      match sum_loop16 (S (length vals)) vals cnt 0
              (fun v => d_pow2 (d_sub (d_of_Z v) avg)) (d_of_Z 0) with
      | None => None
      | Some stdev => Some (d_sqrt (d_div stdev (d_of_Z cnt)))
      end
  end.

End Double.

(* ===================================================================== *)
(** ** Vocabulary of the properties *)

(** A buffer of length [L]: the [data_len] field and the allocated array
    agree on [L]. *)
Definition fb_wf (L : Z) (fb : filter_buffer_t) : Prop :=
  data_len fb = L /\ Z.of_nat (length (data fb)) = L.

(** The write position is an index of the array. *)
Definition fb_inv (fb : filter_buffer_t) : Prop :=
  0 <= location fb < data_len fb.

(** Pushing a sequence of values, first to last. *)
Fixpoint fb_push_all (fb : filter_buffer_t) (vals : list Z)
    : option filter_buffer_t :=
  match vals with
  | [] => Some fb
  | v :: vals' =>
      match fb_push fb v with
      | None => None
      | Some fb' => fb_push_all fb' vals'
      end
  end.

(** Sum, maximum and minimum of the stored values. *)
Definition sum_Z (l : list Z) : Z := foldr Z.add 0 l.

Definition max_Z (l : list Z) : Z :=
  match l with
  | [] => 0
  | x :: l' => foldr Z.max x l'
  end.

Definition min_Z (l : list Z) : Z :=
  match l with
  | [] => 0
  | x :: l' => foldr Z.min x l'
  end.

(** The [ioctl] calls of a stretch of trace, each with its result. *)
Definition ioctls_of (t : list event) : list (ioctl_req * Z) :=
  omap (fun e => match e with
                 | EvIoctl _ req r => Some (req, r)
                 | _ => None
                 end) t.

(** The handles closed in a stretch of trace. *)
Definition closes_of (t : list event) : list Z :=
  omap (fun e => match e with EvClose fd => Some fd | _ => None end) t.

Definition is_write_req (req : ioctl_req) : bool :=
  match req with
  | SPI_IOC_WR_MODE _ | SPI_IOC_WR_LSB_FIRST _
  | SPI_IOC_WR_BITS_PER_WORD _ | SPI_IOC_WR_MAX_SPEED_HZ _ => true
  | _ => false
  end.

(** The four configuration writes, in the order of the specification:
    mode, bit ordering, word size, max speed. *)
Definition write_requests (s : spi_settings_t) : list ioctl_req :=
  [SPI_IOC_WR_MODE (mode s); SPI_IOC_WR_LSB_FIRST (is_lsb_first s);
   SPI_IOC_WR_BITS_PER_WORD (bits_per_word s);
   SPI_IOC_WR_MAX_SPEED_HZ (max_speed_hz s)].

(** The device after a sequence of calls: the successful ones applied in
    order, the others without effect. *)
Definition applied (calls : list (ioctl_req * Z)) (d : spi_settings_t)
    : spi_settings_t :=
  foldl (fun d c => if snd c =? 0 then ioctl_effect (fst c) d else d) d calls.

(** The arithmetic mean and the population standard deviation of a list
    of integers, over the reals: the square root of the mean of the squared
    deviations from the mean, the divisor being the count. *)
Definition sum_R (l : list R) : R := foldr Rplus 0%R l.

Definition mean_R (vals : list Z) : R :=
  (sum_R (map IZR vals) / IZR (Z.of_nat (length vals)))%R.

Definition pstdev_R (vals : list Z) : R :=
  R_sqrt.sqrt
    (sum_R (map (fun v => (IZR v - mean_R vals) * (IZR v - mean_R vals))%R vals)
     / IZR (Z.of_nat (length vals)))%R.

(** [f] holds on the [2^k] integers from [lo] on. *)
Fixpoint forall_block (k : nat) (lo : Z) (f : Z -> bool) : bool :=
  match k with
  | O => f lo
  | S k' => forall_block k' lo f && forall_block k' (lo + 2 ^ Z.of_nat k') f
  end.

(** The 12 magnitude bits assembled from the two received bytes, as the
    specification writes them: [((byte0 & 0x0F) << 8) | byte1]. *)
Definition reconstructed (byte0 byte1 : byte) : Z :=
  Z.lor (Z.shiftl (Z.land (byte_val byte0) 0x0F) 8) (byte_val byte1).

(** The failure sentinel [0x8001] as an [int16_t]. *)
Definition sentinel : Z := to_int16 0x8001.

(* ===================================================================== *)
(** ** Concrete environments and inputs for the examples *)

(** An environment that gives fixed answers: [fd] to [open], [codes req]
    to an [ioctl] request, [rd] to the two-byte read. *)
Definition env_fixed (fd : Z) (codes : ioctl_req -> Z) (rd : Z * (byte * byte))
    : environment :=
  mk_env (fun _ _ => fd) (fun _ _ req => codes req) (fun _ _ => rd).

(** A device in mode 0 at 500 kHz, nothing recorded yet. *)
Definition world0 : world :=
  mk_world (mk_settings 0 0 8 500000) (mk_settings 0 0 0 0) [].

(** main.c: [spi_settings_desired] ([SPI_MODE_3] is 3). *)
Definition spi_settings_desired : spi_settings_t := mk_settings 3 0 8 25000.

(** main.c: [device]. *)
Definition device_path : string := "/dev/spidev0.0".

(** The bits-per-word write is refused with -1, everything else succeeds. *)
Definition refuse_bits_per_word (req : ioctl_req) : Z :=
  match req with
  | SPI_IOC_WR_BITS_PER_WORD _ => -1
  | _ => 0
  end.

(** Sixteen samples: 0 once, 100 once, 50 fourteen times. *)
Definition spread_buffer : filter_buffer_t :=
  mk_fb (0 :: 100 :: replicate 14 50) 16 2.

(* ===================================================================== *)
(** ** spi.c: the remaining functions *)

Section Shutdown.

Variable env : environment.



(** spi.c: [spi_shutdown]. *)
Definition spi_shutdown (fd : Z) : M unit :=
  (orig <- get_orig ;;
   ret <- spi_write_settings env fd orig ;;
   (if negb (0 =? ret) then
      printf "spi_shutdown: failed to write SPI settings, code %d\n" [ret]
    else pure tt) ;;;
   sys_close fd)%spi.

End Shutdown.

(** The four configuration reads, in the order [spi_read_settings] makes
    them. *)
Definition read_requests : list ioctl_req :=
  [SPI_IOC_RD_MODE; SPI_IOC_RD_LSB_FIRST; SPI_IOC_RD_BITS_PER_WORD;
   SPI_IOC_RD_MAX_SPEED_HZ].

(** What a successful read request stores in the caller's struct: the
    matching register of the device [d]. *)
Definition read_into (req : ioctl_req) (d s : spi_settings_t) : spi_settings_t :=
  match req with
  | SPI_IOC_RD_MODE =>
      mk_settings (mode d) (is_lsb_first s) (bits_per_word s) (max_speed_hz s)
  | SPI_IOC_RD_LSB_FIRST =>
      mk_settings (mode s) (is_lsb_first d) (bits_per_word s) (max_speed_hz s)
  | SPI_IOC_RD_BITS_PER_WORD =>
      mk_settings (mode s) (is_lsb_first s) (bits_per_word d) (max_speed_hz s)
  | SPI_IOC_RD_MAX_SPEED_HZ =>
      mk_settings (mode s) (is_lsb_first s) (bits_per_word s) (max_speed_hz d)
  | _ => s
  end.

(** The caller's struct after a sequence of calls on the device [d]. *)
Definition stored (calls : list (ioctl_req * Z)) (d s : spi_settings_t)
    : spi_settings_t :=
  foldl (fun s c => if snd c =? 0 then read_into (fst c) d s else s) s calls.

(** The [read] calls and the lines printed in a stretch of trace. *)
Definition reads_of (t : list event) : list (Z * Z) :=
  omap (fun e => match e with EvRead fd r => Some (fd, r) | _ => None end) t.


(** The byte of value [z mod 256]. *)
Definition byte_of_Z (z : Z) : byte :=
  match Byte.of_N (Z.to_N (z mod 256)) with
  | Some b => b
  | None => x00
  end.

(** The byte pair that carries the 13-bit two's-complement code [v], most
    significant byte first, the three leading bits zero: what the MCP3301
    side of the transfer puts on the bus. *)
Definition mcp3301_encode (v : Z) : byte * byte :=
  (byte_of_Z ((v mod 8192) / 256), byte_of_Z (v mod 8192)).

(* ===================================================================== *)
(** ** main.c: the timestamped measurement and the entry point *)

(** [clock_t] is a [long]; [CLOCKS_PER_SEC] is 1000000 on Linux. *)
Definition to_long (x : Z) : Z := wrap_signed 64 x.
Definition CLOCKS_PER_SEC : Z := 1000000.
Definition EXIT_FAILURE : Z := 1.

(** main.c: [mcp3301_measurement_t]. *)
Record mcp3301_measurement_t (D : Type) := mk_measurement {
  int_val : Z;
  timestamp : D
}.
Arguments mk_measurement {D} _ _.
Arguments int_val {D} _.
Arguments timestamp {D} _.

(** One line of the sampling loop's output,
    [printf("%5.6f\t%d\t%4.3f\n", mt.timestamp, mt.int_val, filter_avg(fb))],
    by its three arguments. *)
Record sample_line (D : Type) := mk_line {
  line_timestamp : D;
  line_raw : Z;
  line_filtered : D
}.
Arguments mk_line {D} _ _ _.
Arguments line_timestamp {D} _.
Arguments line_raw {D} _.
Arguments line_filtered {D} _.

(** The variables of [main] that live across iterations of the loop, and
    the sample lines printed so far (oldest first): they carry doubles,
    so they are collected here rather than in the trace, whose [printf]
    events have integer arguments. *)
Record main_state (D : Type) := mk_state {
  st_fb : filter_buffer_t;
  st_loops : Z;
  st_t : D;
  st_mt : mcp3301_measurement_t D;
  st_out : list (sample_line D)
}.
Arguments mk_state {D} _ _ _ _ _.
Arguments st_fb {D} _.
Arguments st_loops {D} _.
Arguments st_t {D} _.
Arguments st_mt {D} _.
Arguments st_out {D} _.

(** How far [main] has got: it has returned with an exit status, it is
    still in its loop, or it has left defined behaviour (a store or a
    read outside the filter buffer). *)
Inductive main_result (D : Type) :=
| MainExit (status : Z)
| MainRunning (st : main_state D)
| MainUndefined.
Arguments MainExit {D} _.
Arguments MainRunning {D} _.
Arguments MainUndefined {D}.

Section Main.

Context {D : Type} {ops : DoubleOps D}.
Variable env : environment.

(** The value [clock()] returns, given what has happened so far. *)
Variable clock : list event -> Z.

Definition sys_clock : M Z := fun w => (clock (trace w), w).

(** [((double)(now - t_init)) / CLOCKS_PER_SEC], the subtraction in
    [clock_t]. *)
Definition elapsed (now t_init : Z) : D :=
  d_div (d_of_Z (to_long (now - t_init))) (d_of_Z CLOCKS_PER_SEC).

(** main.c: [read_mcp3301_measurement]. *)
Definition read_mcp3301_measurement (fd time_init : Z)
    : M (mcp3301_measurement_t D) :=
  (int_val <- read_mcp3301_single env fd ;;
   now <- sys_clock ;;
   pure (mk_measurement int_val (elapsed now time_init)))%spi.

(** One iteration of the loop of [main]: the body, then the increment
    expression of the [for]. *)
Definition main_iteration (spi_fd t_init : Z) (st : main_state D)
    : M (option (main_state D)) :=
  (mt <- read_mcp3301_measurement spi_fd t_init ;;
   match fb_push (st_fb st) (int_val mt) with
   | None => pure None
   | Some fb =>
       match filter_avg fb with
       | None => pure None
       | Some avg =>
           let line := mk_line (timestamp mt) (int_val mt) avg in
           let loops := to_int (st_loops st + 1) in
           now <- sys_clock ;;
           pure (Some (mk_state fb loops (elapsed now t_init) mt
                         (st_out st ++ [line])))
       end
   end)%spi.

(** The first [n] iterations of the loop. *)
Fixpoint main_loop (n : nat) (spi_fd t_init : Z) (st : main_state D)
    : M (option (main_state D)) :=
  match n with
  | O => pure (Some st)
  | S n' =>
      (r <- main_loop n' spi_fd t_init st ;;
       match r with
       | None => pure None
       | Some st' => main_iteration spi_fd t_init st'
       end)%spi
  end.

(** main.c: [main], followed for [n] iterations of its loop.  The loop
    has no exit, so the statements after it are not part of any run. *)
Definition main (n : nat) : M (main_result D) :=
  (t_init <- sys_clock ;;
   spi_fd <- spi_init env device_path spi_settings_desired ;;
   if 0 >=? spi_fd then
     printf "main: could not initialize SPI bus\n" [] ;;;
     printf "Done with errors\n" [] ;;;
     pure (MainExit EXIT_FAILURE)
   else
     r <- main_loop n spi_fd t_init
            (mk_state (fb_new 16) 0 (d_of_Z 0)
               (mk_measurement 0 (d_of_Z 0)) []) ;;
     pure (match r with
           | Some st => MainRunning st
           | None => MainUndefined
           end))%spi.

End Main.

(** The values [read_mcp3301_single] can return: a 13-bit code or the
    sentinel. *)
Definition is_reading (v : Z) : Prop := -4096 <= v <= 4095 \/ v = -32767.

(** What the loop of [main] keeps true of its filter buffer: sixteen
    slots, the write position among them, readings in every slot. *)
Definition loop_inv {D} (st : main_state D) : Prop :=
  fb_wf 16 (st_fb st) /\ fb_inv (st_fb st) /\ Forall is_reading (data (st_fb st)).

(** Further inputs for the examples: an environment whose calls all
    succeed on descriptor 3 and whose transfer delivers 0x11 0x00, the
    same on descriptor 0, and a clock that stands still. *)
Definition env_ok : environment := env_fixed 3 (fun _ => 0) (2, (x11, x00)).
Definition env_fd0 : environment := env_fixed 0 (fun _ => 0) (2, (x11, x00)).
Definition clock_still : list event -> Z := fun _ => 0.

(* ===================================================================== *)
(** * Properties *)

(** ** Machine integers *)

Lemma wrap_signed_small w x :
  0 < w -> - 2 ^ (w - 1) <= x < 2 ^ (w - 1) -> wrap_signed w x = x.
Proof.
  intros Hw Hx. unfold wrap_signed.
  replace (2 ^ w) with (2 * 2 ^ (w - 1)).
  - rewrite Z.mod_small; lia.
  - rewrite <- Z.pow_succ_r by lia. f_equal. lia.
Qed.

Lemma to_int16_small x : -32768 <= x < 32768 -> to_int16 x = x.
Proof. intros. unfold to_int16. apply wrap_signed_small; simpl; lia. Qed.

Lemma byte_val_range b : 0 <= byte_val b < 256.
Proof.
  unfold byte_val. pose proof (Byte.to_N_bounded b) as H.
  split; [apply N2Z.is_nonneg|]. lia.
Qed.

Lemma lor_below_pow2 a b n :
  0 < n -> 0 <= a < 2 ^ n -> 0 <= b < 2 ^ n -> 0 <= Z.lor a b < 2 ^ n.
Proof.
  intros Hn Ha Hb.
  assert (Hnn : 0 <= Z.lor a b) by (apply Z.lor_nonneg; lia).
  split; [exact Hnn|].
  destruct (Z.eq_dec (Z.lor a b) 0) as [E|E].
  - rewrite E. apply Z.pow_pos_nonneg; lia.
  - apply Z.log2_lt_pow2; [lia|].
    rewrite Z.log2_lor by lia.
    apply Z.max_lub_lt.
    + destruct (Z.eq_dec a 0) as [->|]; [simpl; lia|].
      apply Z.log2_lt_pow2; lia.
    + destruct (Z.eq_dec b 0) as [->|]; [simpl; lia|].
      apply Z.log2_lt_pow2; lia.
Qed.

(** ** MCP3301 decode *)

Lemma reconstructed_range byte0 byte1 : 0 <= reconstructed byte0 byte1 < 4096.
Proof.
  unfold reconstructed.
  pose proof (byte_val_range byte0) as H0.
  pose proof (byte_val_range byte1) as H1.
  apply (lor_below_pow2 _ _ 12); [lia| |simpl; lia].
  change 0x0F with (Z.ones 4). rewrite Z.land_ones by lia.
  rewrite Z.shiftl_mul_pow2 by lia.
  pose proof (Z.mod_pos_bound (byte_val byte0) (2 ^ 4) ltac:(lia)).
  simpl in *. lia.
Qed.

(** What [read_mcp3301_single] returns once the transfer has delivered
    two bytes. *)
Lemma read_mcp3301_single_success env fd w byte0 byte1 :
  env_read env (trace w) fd = (2, (byte0, byte1)) ->
  fst (read_mcp3301_single env fd w) =
    if Z.land (byte_val byte0) 0x10 =? 0
    then reconstructed byte0 byte1
    else reconstructed byte0 byte1 - 4096.
Proof.
  intros Hread.
  unfold read_mcp3301_single, spi_read_two_bytes, sys_read, bind.
  rewrite Hread. cbn [fst snd negb Z.eqb Pos.eqb].
  rewrite Z.lor_0_l.
  pose proof (reconstructed_range byte0 byte1) as Hr.
  assert (Hhi : 0 <= Z.shiftl (Z.land (byte_val byte0) 0x0F) 8 < 4096).
  { pose proof (byte_val_range byte0) as H0.
    change 0x0F with (Z.ones 4). rewrite Z.land_ones by lia.
    rewrite Z.shiftl_mul_pow2 by lia.
    pose proof (Z.mod_pos_bound (byte_val byte0) (2 ^ 4) ltac:(lia)).
    simpl in *. lia. }
  rewrite (to_int16_small (Z.shiftl _ 8)) by lia.
  fold (reconstructed byte0 byte1).
  rewrite (to_int16_small (reconstructed byte0 byte1)) by lia.
  destruct (Z.land (byte_val byte0) 0x10 =? 0); cbn [negb Z.eqb fst pure].
  - reflexivity.
  - apply to_int16_small. lia.
Qed.

(** C1.  When the two-byte transfer returns exactly 2, the reading is
    [((byte0 & 0x0F) << 8) | byte1] if bit 4 of [byte0] is clear, and that
    value minus 4096 if bit 4 is set. *)
Theorem read_mcp3301_single_decode env fd w byte0 byte1 :
  env_read env (trace w) fd = (2, (byte0, byte1)) ->
  fst (read_mcp3301_single env fd w) =
    let v := Z.lor (Z.shiftl (Z.land (byte_val byte0) 0x0F) 8) (byte_val byte1) in
    if Z.land (byte_val byte0) 0x10 =? 0 then v else v - 4096.
Proof.
  intros H. cbv zeta.
  rewrite (read_mcp3301_single_success env fd w byte0 byte1 H).
  unfold reconstructed. reflexivity.
Qed.

(** The two decode examples of the specification: bytes (0x01, 0x00) read
    as 256, bytes (0x10, 0x00) as -4096. *)
Example read_mcp3301_single_0x0100 :
  fst (read_mcp3301_single (env_fixed 3 (fun _ => 0) (2, (x01, x00))) 3 world0)
    = 256.
Proof. reflexivity. Qed.

Example read_mcp3301_single_0x1000 :
  fst (read_mcp3301_single (env_fixed 3 (fun _ => 0) (2, (x10, x00))) 3 world0)
    = -4096.
Proof. reflexivity. Qed.

(** A failed read leaves its message on standard output and nothing else
    but the [read] call in the trace. *)
Example read_mcp3301_single_eof_trace :
  read_mcp3301_single (env_fixed 3 (fun _ => 0) (0, (x00, x00))) 3 world0
    = (-32767,
       mk_world (device world0) (spi_settings_orig world0)
         [EvRead 3 0;
          EvPrintf "read_mcp3301_single: failed to read value\n" []]).
Proof. reflexivity. Qed.

(** What [read_mcp3301_single] returns when the transfer does not deliver
    exactly two bytes. *)
Lemma read_mcp3301_single_failure env fd w :
  fst (env_read env (trace w) fd) <> 2 ->
  fst (read_mcp3301_single env fd w) = sentinel.
Proof.
  intros Hread.
  unfold read_mcp3301_single, spi_read_two_bytes, sys_read, bind.
  cbn [fst snd].
  destruct (Z.eqb_spec 2 (fst (env_read env (trace w) fd))) as [E|E].
  - congruence.
  - reflexivity.
Qed.

Lemma sentinel_value : sentinel = -32767.
Proof. reflexivity. Qed.

(** C2.  Whatever the transfer returns other than exactly 2 (0, 1, a
    negative error code, ...), the reading is the sentinel [0x8001], i.e.
    -32767 as an [int16_t], whatever the two-byte buffer holds. *)
Theorem read_mcp3301_single_short_read env fd w :
  fst (env_read env (trace w) fd) <> 2 ->
  fst (read_mcp3301_single env fd w) = -32767 /\
  fst (read_mcp3301_single env fd w) mod 2 ^ 16 = 0x8001 /\
  forall env' w' fd',
    fst (env_read env' (trace w') fd') <> 2 ->
    fst (read_mcp3301_single env' fd' w') = fst (read_mcp3301_single env fd w).
Proof.
  intros H. rewrite (read_mcp3301_single_failure env fd w H).
  repeat split.
  intros env' w' fd' H'. apply read_mcp3301_single_failure, H'.
Qed.

(** C3.  On the successful-transfer path the reading lies in
    -4096 .. 4095, hence is never the failure sentinel. *)
Theorem read_mcp3301_single_range env fd w byte0 byte1 :
  env_read env (trace w) fd = (2, (byte0, byte1)) ->
  -4096 <= fst (read_mcp3301_single env fd w) <= 4095 /\
  fst (read_mcp3301_single env fd w) <> to_int16 0x8001.
Proof.
  intros H. rewrite (read_mcp3301_single_success env fd w byte0 byte1 H).
  pose proof (reconstructed_range byte0 byte1) as Hr.
  change (to_int16 0x8001) with (-32767).
  destruct (Z.land (byte_val byte0) 0x10 =? 0); lia.
Qed.

Lemma land_mask_absorb a m k : Z.land m k = k -> Z.land (Z.land a m) k = Z.land a k.
Proof. intros H. rewrite <- Z.land_assoc, H. reflexivity. Qed.

(** C9.  Only bits 0-4 of the first byte are consumed: the reading obtained
    from [(byte0, byte1)] is the one obtained from [(byte0 & 0x1F, byte1)]. *)
Theorem read_mcp3301_single_ignores_top_bits
    env fd w env' fd' w' byte0 byte0' byte1 :
  env_read env (trace w) fd = (2, (byte0, byte1)) ->
  env_read env' (trace w') fd' = (2, (byte0', byte1)) ->
  byte_val byte0' = Z.land (byte_val byte0) 0x1F ->
  fst (read_mcp3301_single env fd w) = fst (read_mcp3301_single env' fd' w').
Proof.
  intros H H' Hmask.
  rewrite (read_mcp3301_single_success env fd w byte0 byte1 H).
  rewrite (read_mcp3301_single_success env' fd' w' byte0' byte1 H').
  unfold reconstructed. rewrite Hmask.
  rewrite !land_mask_absorb by reflexivity.
  reflexivity.
Qed.

(** ** [int] and [size_t] arithmetic *)

Lemma to_int_small x : INT_MIN <= x <= INT_MAX -> to_int x = x.
Proof.
  unfold INT_MIN, INT_MAX, to_int. intros.
  apply wrap_signed_small; simpl; lia.
Qed.

Lemma to_int_add_l a b : to_int (to_int a + b) = to_int (a + b).
Proof.
  unfold to_int, wrap_signed. f_equal.
  replace ((a + 2 ^ (32 - 1)) mod 2 ^ 32 - 2 ^ (32 - 1) + b + 2 ^ (32 - 1))
    with ((a + 2 ^ (32 - 1)) mod 2 ^ 32 + b) by lia.
  rewrite Zplus_mod_idemp_l. f_equal. lia.
Qed.

Lemma to_int_sub_l a b : to_int (to_int a - b) = to_int (a - b).
Proof. unfold Z.sub. apply to_int_add_l. Qed.

Lemma to_size_t_small x : 0 <= x < 2 ^ 64 -> to_size_t x = x.
Proof. intros. unfold to_size_t. apply Z.mod_small. lia. Qed.

Lemma array_get_lookup (a : list Z) (i : nat) : array_get a (Z.of_nat i) = a !! i.
Proof.
  unfold array_get. destruct (Z.leb_spec 0 (Z.of_nat i)); [|lia].
  rewrite Nat2Z.id. reflexivity.
Qed.

(** ** Sum, maximum and minimum *)

Lemma max_Z_upper (l : list Z) y : y ∈ l -> y <= max_Z l.
Proof.
  destruct l as [|x l]; [intros H; inversion H|].
  simpl. revert y. induction l as [|z l IH]; intros y Hy; simpl.
  - apply list_elem_of_singleton in Hy. lia.
  - apply elem_of_cons in Hy as [->|Hy].
    + specialize (IH x ltac:(left)). lia.
    + apply elem_of_cons in Hy as [->|Hy].
      * lia.
      * specialize (IH y ltac:(right; exact Hy)). lia.
Qed.

Lemma max_Z_elem (l : list Z) : l <> [] -> max_Z l ∈ l.
Proof.
  destruct l as [|x l]; [congruence|intros _].
  simpl. induction l as [|z l IH]; simpl.
  - left.
  - destruct (Z.max_spec z (foldr Z.max x l)) as [[_ ->]|[_ ->]].
    + apply elem_of_cons in IH as [->|IH]; [left|right; right; exact IH].
    + right; left.
Qed.

Lemma min_Z_lower (l : list Z) y : y ∈ l -> min_Z l <= y.
Proof.
  destruct l as [|x l]; [intros H; inversion H|].
  simpl. revert y. induction l as [|z l IH]; intros y Hy; simpl.
  - apply list_elem_of_singleton in Hy. lia.
  - apply elem_of_cons in Hy as [->|Hy].
    + specialize (IH x ltac:(left)). lia.
    + apply elem_of_cons in Hy as [->|Hy].
      * lia.
      * specialize (IH y ltac:(right; exact Hy)). lia.
Qed.

Lemma min_Z_elem (l : list Z) : l <> [] -> min_Z l ∈ l.
Proof.
  destruct l as [|x l]; [congruence|intros _].
  simpl. induction l as [|z l IH]; simpl.
  - left.
  - destruct (Z.min_spec z (foldr Z.min x l)) as [[_ ->]|[_ ->]].
    + right; left.
    + apply elem_of_cons in IH as [->|IH]; [left|right; right; exact IH].
Qed.

Lemma foldr_max_acc (l : list Z) a z :
  foldr Z.max (Z.max a z) l = Z.max z (foldr Z.max a l).
Proof. induction l as [|y l IH]; simpl; [|rewrite IH]; lia. Qed.

Lemma foldr_min_acc (l : list Z) a z :
  foldr Z.min (Z.min a z) l = Z.min z (foldr Z.min a l).
Proof. induction l as [|y l IH]; simpl; [|rewrite IH]; lia. Qed.

Lemma forall_block_spec k lo f :
  forall_block k lo f = true ->
  forall z, lo <= z < lo + 2 ^ Z.of_nat k -> f z = true.
Proof.
  revert lo. induction k as [|k IH]; intros lo H z Hz.
  - simpl in *. replace z with lo by lia. exact H.
  - cbn [forall_block] in H. apply andb_prop in H as [H1 H2].
    rewrite Nat2Z.inj_succ, Z.pow_succ_r in Hz by lia.
    destruct (Z.lt_ge_cases z (lo + 2 ^ Z.of_nat k)).
    + apply (IH lo H1). lia.
    + apply (IH _ H2). lia.
Qed.

(** ** The trimmed average *)

(** The scan of [filter_avg], entered at index [length pre] with the slots
    [rest] still to read: it ends with the running maximum and minimum
    extended over [rest] and with a sum that agrees with the exact one
    modulo [2^32]. *)
Lemma filter_avg_loop_scan (rest pre : list Z) fuel fb mx mn sm :
  data fb = pre ++ rest ->
  data_len fb = Z.of_nat (length (data fb)) ->
  data_len fb <= INT_MAX ->
  (length rest < fuel)%nat ->
  exists sm',
    filter_avg_loop fuel fb (Z.of_nat (length pre)) mx mn sm
      = Some (foldr Z.max mx rest, foldr Z.min mn rest, sm') /\
    to_int sm' = to_int (sm + sum_Z rest).
Proof.
  revert pre fuel mx mn sm.
  induction rest as [|d rest IH]; intros pre fuel mx mn sm Hdata Hlen Hmax Hfuel;
    (destruct fuel as [|fuel]; [simpl in Hfuel; lia|]);
    cbn [filter_avg_loop].
  - assert (Hl : length (data fb) = length pre).
    { rewrite Hdata, length_app. simpl. lia. }
    exists sm.
    rewrite to_size_t_small by (unfold INT_MAX in Hmax; lia).
    destruct (Z.ltb_spec (Z.of_nat (length pre)) (data_len fb)); [lia|].
    simpl. split; [reflexivity|f_equal; lia].
  - assert (Hl : length (data fb) = (length pre + S (length rest))%nat).
    { rewrite Hdata, length_app. reflexivity. }
    rewrite to_size_t_small by (unfold INT_MAX in Hmax; lia).
    destruct (Z.ltb_spec (Z.of_nat (length pre)) (data_len fb)); [|lia].
    rewrite array_get_lookup, Hdata.
    rewrite lookup_app_r by lia. rewrite Nat.sub_diag. cbn [lookup list_lookup].
    rewrite to_int_small by (unfold INT_MIN, INT_MAX in *; lia).
    replace (Z.of_nat (length pre) + 1) with (Z.of_nat (length (pre ++ [d])))
      by (rewrite length_app; simpl; lia).
    destruct (IH (pre ++ [d]) fuel
                (if d >? mx then d else mx) (if d <? mn then d else mn)
                (to_int (sm + d))) as (sm' & Hrun & Hsum).
    + rewrite <- app_assoc. exact Hdata.
    + exact Hlen.
    + exact Hmax.
    + simpl in Hfuel. lia.
    + exists sm'. split.
      * rewrite Hrun.
        replace (if d >? mx then d else mx) with (Z.max mx d)
          by (destruct (Z.gtb_spec d mx); lia).
        replace (if d <? mn then d else mn) with (Z.min mn d)
          by (destruct (Z.ltb_spec d mn); lia).
        rewrite foldr_max_acc, foldr_min_acc. reflexivity.
      * rewrite Hsum, to_int_add_l. simpl. f_equal. lia.
Qed.

Lemma sum_Z_replicate n V : sum_Z (replicate n V) = Z.of_nat n * V.
Proof.
  unfold sum_Z. induction n as [|n IH]; [reflexivity|].
  cbn [replicate foldr]. rewrite IH. lia.
Qed.

Lemma max_Z_replicate n V : max_Z (replicate (S n) V) = V.
Proof.
  cbn [replicate max_Z]. induction n as [|n IH]; [reflexivity|].
  cbn [replicate foldr]. rewrite IH. lia.
Qed.

Lemma min_Z_replicate n V : min_Z (replicate (S n) V) = V.
Proof.
  cbn [replicate min_Z]. induction n as [|n IH]; [reflexivity|].
  cbn [replicate foldr]. rewrite IH. lia.
Qed.

(** [filter_avg] in closed form, for any buffer of at least one slot whose
    length fits the [int] loop counter. *)
Lemma filter_avg_value {D} {ops : DoubleOps D} fb L :
  fb_wf L fb -> 1 <= L <= INT_MAX ->
  filter_avg fb =
    Some (d_div
            (d_of_Z (to_int (sum_Z (data fb) - max_Z (data fb) - min_Z (data fb))))
            (d_of_Z (to_size_t (L - 2)))).
Proof.
  intros [Hlen Hdata] HL. unfold filter_avg.
  destruct (data fb) as [|x rest] eqn:E; [simpl in Hdata; lia|].
  change (array_get (x :: rest) 0) with (Some x).
  destruct (filter_avg_loop_scan rest [x] (S (length (x :: rest))) fb x x x)
    as (sm & Hrun & Hsum).
  - exact E.
  - rewrite E. lia.
  - lia.
  - simpl. lia.
  - change (Z.of_nat (length [x])) with 1 in Hrun. rewrite Hrun, Hlen.
    do 3 f_equal.
    rewrite to_int_sub_l.
    replace (sm - foldr Z.max x rest - foldr Z.min x rest)
      with (sm - (foldr Z.max x rest + foldr Z.min x rest)) by lia.
    rewrite <- to_int_sub_l, Hsum, to_int_sub_l.
    f_equal. simpl. lia.
Qed.

Lemma b64_div_14 V :
  -32768 <= V <= 32767 ->
  PrimFloat.div (b64_of_Z (14 * V)) (b64_of_Z 14) = b64_of_Z V.
Proof.
  intros HV. apply FloatAxioms.Leibniz.eqb_spec.
  apply (forall_block_spec 16 (-32768)
           (fun V => PrimFloat.Leibniz.eqb
                       (PrimFloat.div (b64_of_Z (14 * V)) (b64_of_Z 14))
                       (b64_of_Z V))).
  - vm_compute. reflexivity.
  - change (2 ^ Z.of_nat 16) with 65536. lia.
Qed.

(** C4, as the code has it.  For every buffer of length [L] with
    [3 <= L <= INT_MAX] whose trimmed sum [S - M - m] is representable as
    an [int], [filter_avg] returns the [double] quotient of [S - M - m] by
    [L - 2].  On a length-16 buffer whose slots all hold the same [V],
    with [14 * V] representable as an [int], that quotient is [V] in exact
    arithmetic; in binary64 the value returned is exactly [V] for every
    16-bit sample [V]. *)
Theorem filter_avg_trimmed_mean :
  (forall D (ops : DoubleOps D) fb L,
     fb_wf L fb -> 3 <= L <= INT_MAX ->
     INT_MIN <= sum_Z (data fb) - max_Z (data fb) - min_Z (data fb) <= INT_MAX ->
     filter_avg fb =
       Some (d_div
               (d_of_Z (sum_Z (data fb) - max_Z (data fb) - min_Z (data fb)))
               (d_of_Z (L - 2)))) /\
  (forall V loc,
     INT_MIN <= 14 * V <= INT_MAX ->
     filter_avg (ops := exact_reals) (mk_fb (replicate 16 V) 16 loc)
       = Some (IZR V)) /\
  (forall V loc,
     -32768 <= V <= 32767 ->
     filter_avg (ops := binary64) (mk_fb (replicate 16 V) 16 loc)
       = Some (b64_of_Z V)).
Proof.
  split; [|split].
  - intros D ops fb L Hwf HL Hfit.
    rewrite (filter_avg_value fb L Hwf) by lia.
    rewrite to_int_small by exact Hfit.
    rewrite to_size_t_small by (unfold INT_MAX in HL; lia).
    reflexivity.
  - intros V loc HV.
    rewrite (filter_avg_value _ 16) by (unfold INT_MAX; split; simpl; lia).
    cbn [data].
    rewrite sum_Z_replicate, (max_Z_replicate 15), (min_Z_replicate 15).
    replace (Z.of_nat 16 * V - V - V) with (14 * V) by lia.
    rewrite to_int_small by exact HV.
    change (to_size_t (16 - 2)) with 14.
    cbn [d_div d_of_Z exact_reals]. f_equal.
    rewrite mult_IZR. field.
  - intros V loc HV.
    rewrite (filter_avg_value _ 16) by (unfold INT_MAX; split; simpl; lia).
    cbn [data].
    rewrite sum_Z_replicate, (max_Z_replicate 15), (min_Z_replicate 15).
    replace (Z.of_nat 16 * V - V - V) with (14 * V) by lia.
    rewrite to_int_small by (unfold INT_MIN, INT_MAX; lia).
    change (to_size_t (16 - 2)) with 14.
    f_equal. apply b64_div_14, HV.
Qed.

(** C4 fails as stated: sixteen slots holding [2^30] make the [int] sum
    leave the 32-bit range, and the value returned is negative. *)
Lemma filter_avg_uniform_overflow :
  let fb := mk_fb (replicate 16 (2 ^ 30)) 16 0 in
  fb_wf 16 fb /\
  sum_Z (data fb) - max_Z (data fb) - min_Z (data fb) = 14 * 2 ^ 30 /\
  filter_avg (ops := binary64) fb <> Some (b64_of_Z (2 ^ 30)) /\
  filter_avg (ops := binary64) fb <>
    Some (PrimFloat.div
            (b64_of_Z (sum_Z (data fb) - max_Z (data fb) - min_Z (data fb)))
            (b64_of_Z (16 - 2))).
Proof.
  assert (Hneg : forall x : PrimFloat.float,
            filter_avg (ops := binary64) (mk_fb (replicate 16 (2 ^ 30)) 16 0)
              = Some x -> PrimFloat.ltb x PrimFloat.zero = true).
  { intros x Hx. vm_compute in Hx. injection Hx as <-. reflexivity. }
  cbv zeta. repeat split.
  - intros H. apply Hneg in H. vm_compute in H. discriminate.
  - intros H. apply Hneg in H. vm_compute in H. discriminate.
Qed.

(** ** The circular buffer *)

Lemma fb_new_data L :
  0 <= L <= INT_MAX -> data (fb_new L) = replicate (Z.to_nat L) 0.
Proof.
  intros HL. unfold fb_new, sizeof_int. cbn [data].
  rewrite to_size_t_small by (unfold INT_MAX in HL; lia).
  rewrite (Z.mul_comm 4 L), Z.div_mul by lia. reflexivity.
Qed.

Lemma fb_new_wf L : 0 <= L <= INT_MAX -> fb_wf L (fb_new L).
Proof.
  intros HL. split; [reflexivity|].
  rewrite fb_new_data by exact HL.
  rewrite length_replicate. apply Z2Nat.id. lia.
Qed.

(** While the buffer is no longer than [INT_MAX], [location + 1] stays an
    [int] and the conversions around the [%] change nothing. *)
Lemma fb_incr_loc_spec fb :
  1 <= data_len fb <= INT_MAX -> fb_inv fb ->
  fb_incr_loc fb =
    Some {| data := data fb;
            data_len := data_len fb;
            location := (location fb + 1) mod data_len fb |}.
Proof.
  intros HL Hinv. unfold fb_inv in Hinv. unfold fb_incr_loc.
  destruct (Z.eqb_spec (data_len fb) 0); [lia|].
  unfold INT_MAX in HL.
  rewrite (to_int_small (location fb + 1)) by (unfold INT_MIN, INT_MAX; lia).
  rewrite to_size_t_small by lia.
  pose proof (Z.mod_pos_bound (location fb + 1) (data_len fb) ltac:(lia)).
  rewrite to_int_small by (unfold INT_MIN, INT_MAX; lia).
  reflexivity.
Qed.

Lemma fb_push_spec L fb val :
  1 <= L <= INT_MAX -> fb_wf L fb -> fb_inv fb ->
  fb_push fb val =
    Some {| data := <[Z.to_nat (location fb) := val]> (data fb);
            data_len := L;
            location := (location fb + 1) mod L |}.
Proof.
  intros HL [Hlen Hdata] Hinv. unfold fb_push.
  pose proof Hinv as Hinv'. unfold fb_inv in Hinv'.
  destruct (Z.leb_spec 0 (location fb)); [|lia].
  destruct (Z.ltb_spec (location fb) (Z.of_nat (length (data fb)))); [|lia].
  cbn [andb]. rewrite fb_incr_loc_spec.
  - cbn [data data_len location]. rewrite Hlen. reflexivity.
  - cbn [data_len]. lia.
  - exact Hinv.
Qed.

Lemma fb_push_keeps L fb val fb' :
  1 <= L <= INT_MAX -> fb_wf L fb -> fb_inv fb ->
  fb_push fb val = Some fb' ->
  fb_wf L fb' /\ fb_inv fb' /\
  location fb' = (location fb + 1) mod L /\
  data fb' = <[Z.to_nat (location fb) := val]> (data fb).
Proof.
  intros HL Hwf Hinv Hpush.
  rewrite (fb_push_spec L fb val HL Hwf Hinv) in Hpush.
  injection Hpush as <-. destruct Hwf as [Hlen Hdata].
  pose proof (Z.mod_pos_bound (location fb + 1) L ltac:(lia)).
  repeat split; cbn [data data_len location]; try lia.
  rewrite length_insert. exact Hdata.
Qed.

Lemma fb_push_all_app fb l1 l2 :
  fb_push_all fb (l1 ++ l2) =
    match fb_push_all fb l1 with
    | None => None
    | Some fb' => fb_push_all fb' l2
    end.
Proof.
  revert fb. induction l1 as [|v l1 IH]; intros fb; [reflexivity|].
  cbn [app fb_push_all]. destruct (fb_push fb v); [apply IH|reflexivity].
Qed.

(** After any number of pushes the buffer is still well formed and the
    write position has advanced by that number, modulo the length. *)
Lemma fb_push_all_location L (vals : list Z) : forall fb,
  1 <= L <= INT_MAX -> fb_wf L fb -> fb_inv fb ->
  exists fb',
    fb_push_all fb vals = Some fb' /\ fb_wf L fb' /\ fb_inv fb' /\
    location fb' = (location fb + Z.of_nat (length vals)) mod L.
Proof.
  induction vals as [|v vals IH]; intros fb HL Hwf Hinv.
  - exists fb. repeat split; try apply Hwf; try apply Hinv.
    cbn [length]. rewrite Z.add_0_r, Z.mod_small; [reflexivity|].
    destruct Hwf as [<- _]. exact Hinv.
  - cbn [fb_push_all].
    destruct (fb_push fb v) as [fb1|] eqn:E;
      [|rewrite (fb_push_spec L fb v HL Hwf Hinv) in E; discriminate].
    destruct (fb_push_keeps L fb v fb1 HL Hwf Hinv E) as (Hwf1 & Hinv1 & Hloc1 & _).
    destruct (IH fb1 HL Hwf1 Hinv1) as (fb' & Hrun & Hwf' & Hinv' & Hloc').
    exists fb'. repeat split; try apply Hwf'; try apply Hinv'; [exact Hrun|].
    rewrite Hloc', Hloc1. rewrite Zplus_mod_idemp_l.
    f_equal. cbn [length]. lia.
Qed.

(** C5, as the code has it.  For [1 <= N <= INT_MAX], after [N + 1]
    pushes into a fresh buffer of length [N] slot 0 holds the last value
    pushed and the write position is [1 mod N] (that is 1 when [N >= 2]
    and 0 when [N = 1]); every push stores at the write position and
    advances it by one modulo [N]. *)
Theorem fb_push_wraps_around N (vals : list Z) v :
  1 <= N <= INT_MAX -> Z.of_nat (length vals) = N ->
  (exists fb',
     fb_push_all (fb_new N) (vals ++ [v]) = Some fb' /\
     data fb' !! 0%nat = Some v /\
     location fb' = 1 mod N) /\
  (forall fb val,
     fb_wf N fb -> fb_inv fb ->
     fb_push fb val =
       Some {| data := <[Z.to_nat (location fb) := val]> (data fb);
               data_len := N;
               location := (location fb + 1) mod N |}).
Proof.
  intros HN Hlen. split.
  - assert (Hwf0 : fb_wf N (fb_new N)) by (apply fb_new_wf; lia).
    assert (Hinv0 : fb_inv (fb_new N)) by (unfold fb_inv; cbn; lia).
    destruct (fb_push_all_location N vals (fb_new N) HN Hwf0 Hinv0)
      as (fb1 & Hrun & Hwf1 & Hinv1 & Hloc1).
    cbn [location fb_new] in Hloc1.
    rewrite Hlen, Z.add_0_l, Z.mod_same in Hloc1 by lia.
    rewrite fb_push_all_app, Hrun. cbn [fb_push_all].
    rewrite (fb_push_spec N fb1 v HN Hwf1 Hinv1), Hloc1.
    eexists. split; [reflexivity|]. cbn [data location]. split.
    + apply list_lookup_insert_eq. destruct Hwf1 as [_ Hd]. lia.
    + reflexivity.
  - intros fb val Hwf Hinv. apply fb_push_spec; assumption.
Qed.

(** C5 fails as stated for a one-slot buffer: after two pushes the write
    position is 0, not 1. *)
Lemma fb_push_single_slot :
  Z.of_nat (length [10]) = 1 /\
  fb_push_all (fb_new 1) ([10] ++ [20]) = Some (mk_fb [20] 1 0) /\
  location (mk_fb [20] 1 0) <> 1.
Proof. repeat split. discriminate. Qed.

(** C10, as the code has it.  For [1 <= L <= INT_MAX], [fb_new] yields
    [L] zeroed slots with the write position at 0, and every [fb_push] on
    a buffer whose write position is an index of the array stores inside
    the array and leaves the write position an index of the array. *)
Theorem fb_location_invariant L :
  1 <= L <= INT_MAX ->
  (data (fb_new L) = replicate (Z.to_nat L) 0 /\
   location (fb_new L) = 0 /\
   fb_wf L (fb_new L) /\ fb_inv (fb_new L)) /\
  (forall fb val,
     fb_wf L fb -> fb_inv fb ->
     exists fb',
       fb_push fb val = Some fb' /\
       fb_wf L fb' /\ fb_inv fb' /\
       location fb' = (location fb + 1) mod L /\
       data fb' = <[Z.to_nat (location fb) := val]> (data fb)).
Proof.
  intros HL. split.
  - split; [apply fb_new_data; lia|]. split; [reflexivity|].
    split; [apply fb_new_wf; lia|]. unfold fb_inv. cbn. lia.
  - intros fb val Hwf Hinv.
    destruct (fb_push fb val) as [fb'|] eqn:E;
      [|rewrite (fb_push_spec L fb val HL Hwf Hinv) in E; discriminate].
    exists fb'. split; [reflexivity|].
    exact (fb_push_keeps L fb val fb' HL Hwf Hinv E).
Qed.

Lemma incr_loc_past_int_max :
  to_int (to_size_t (to_int (2 ^ 31 - 1 + 1)) mod 2 ^ 32) = - 2 ^ 31.
Proof. reflexivity. Qed.

(** C10 fails as stated for buffers longer than [INT_MAX]: with
    [2^32] slots and the write position at [INT_MAX], [location + 1]
    leaves the [int] range and the push moves the write position to
    [-2^31], which is no index of the array. *)
Lemma fb_push_breaks_invariant :
  let L := 2 ^ 32 in
  let fb := mk_fb (replicate (Z.to_nat L) 0) L (2 ^ 31 - 1) in
  1 <= L /\ fb_wf L fb /\ fb_inv fb /\
  exists fb', fb_push fb 7 = Some fb' /\ location fb' = - 2 ^ 31 /\ ~ fb_inv fb'.
Proof.
  cbv zeta. split; [lia|]. split.
  { split; [reflexivity|]. cbn [data].
    rewrite length_replicate. apply Z2Nat.id. lia. }
  split; [unfold fb_inv; cbn [location data_len]; lia|].
  eexists. split.
  - unfold fb_push. cbn [location data data_len].
    rewrite length_replicate, Z2Nat.id by lia.
    rewrite (proj2 (Z.leb_le 0 (2 ^ 31 - 1))) by lia.
    rewrite (proj2 (Z.ltb_lt (2 ^ 31 - 1) (2 ^ 32))) by lia.
    cbn [andb]. unfold fb_incr_loc. cbn [location data data_len].
    rewrite (proj2 (Z.eqb_neq (2 ^ 32) 0)) by lia.
    rewrite incr_loc_past_int_max. reflexivity.
  - cbn [location]. split; [reflexivity|].
    unfold fb_inv. cbn [location data_len]. lia.
Qed.

(** ** The SPI layer *)

(** Case analysis on the result of the next [ioctl] call of the goal: the
    one whose trace argument mentions no other call. *)
Ltac next_call :=
  match goal with
  | |- context [env_ioctl ?e ?t ?fd ?req] =>
      match t with
      | context [env_ioctl] => fail 1
      | _ => idtac
      end;
      let c := fresh "c" in
      let Hc := fresh "Hc" in
      let E := fresh "E" in
      remember (env_ioctl e t fd req) as c eqn:Hc; clear Hc;
      destruct (Z.eq_dec c 0) as [->|E];
      [rewrite ?Z.eqb_refl
      |rewrite ?(proj2 (Z.eqb_neq c 0)) by exact E;
       rewrite ?(Z.eqb_sym 0 c), ?(proj2 (Z.eqb_neq c 0)) by exact E];
      cbn [negb fst snd trace device spi_settings_orig]
  end.

(** Everything a run of [spi_write_settings] does, by cases on the
    results of the calls it makes. *)
Lemma spi_write_settings_run env fd s w :
  exists new,
    trace (snd (spi_write_settings env fd s w)) = trace w ++ new /\
    let ret := fst (spi_write_settings env fd s w) in
    let w' := snd (spi_write_settings env fd s w) in
    let calls := ioctls_of new in
    map fst calls `prefix_of` write_requests s /\
    (ret = 0 <-> length calls = 4%nat /\ Forall (fun c => snd c = 0) calls) /\
    (ret <> 0 ->
       exists done req,
         calls = done ++ [(req, ret)] /\ Forall (fun c => snd c = 0) done) /\
    device w' = applied calls (device w) /\
    spi_settings_orig w' = spi_settings_orig w /\
    closes_of new = [] /\
    (ret = 0 -> device w' = s).
Proof.
  unfold spi_write_settings, set_spi_mode, set_spi_is_lsb_first,
    set_spi_bits_per_word, set_spi_max_speed_hz, bind, sys_ioctl, printf,
    emit, pure.
  cbn [fst snd trace device spi_settings_orig].
  next_call; [next_call; [next_call; [next_call|]|]|].
  all: eexists; (split; [rewrite <- ?app_assoc; reflexivity|]).
  all: simpl; rewrite ?(proj2 (Z.eqb_neq _ 0)) by assumption.
  all: repeat match goal with |- _ /\ _ => split end; try reflexivity.
  all: try (intros _; destruct s; reflexivity).
  all: try (intros H; contradiction).
  all: try (eexists; reflexivity).
  all: try (split;
            [intros H; first [contradiction
                             |split; [reflexivity|repeat constructor]]
            |intros [Hlen HF];
             first [reflexivity
                   |discriminate Hlen
                   |rewrite !Forall_cons in HF; simpl in HF; tauto]]).
  all: intros H;
    first [exfalso; apply H; reflexivity
          |eexists [], _; split; [reflexivity|repeat constructor]
          |eexists [_], _; split; [reflexivity|repeat constructor]
          |eexists [_; _], _; split; [reflexivity|repeat constructor]
          |eexists [_; _; _], _; split; [reflexivity|repeat constructor]].
Qed.

(** C7.  [spi_write_settings] issues configuration writes in the order
    mode, bit ordering, word size, max speed; it returns 0 exactly when all
    four were issued and succeeded; otherwise it returns the code of the
    first write that failed, which is the last one issued; the writes
    that succeeded before it stay applied to the device. *)
Theorem spi_write_settings_short_circuit env fd s w :
  exists new,
    trace (snd (spi_write_settings env fd s w)) = trace w ++ new /\
    let ret := fst (spi_write_settings env fd s w) in
    let w' := snd (spi_write_settings env fd s w) in
    let calls := ioctls_of new in
    map fst calls `prefix_of` write_requests s /\
    (ret = 0 <-> length calls = 4%nat /\ Forall (fun c => snd c = 0) calls) /\
    (ret <> 0 ->
       exists done req,
         calls = done ++ [(req, ret)] /\ Forall (fun c => snd c = 0) done) /\
    device w' = applied calls (device w).
Proof.
  destruct (spi_write_settings_run env fd s w)
    as (new & Htrace & Hprefix & Hzero & Hfail & Hdev & _).
  exists new. split; [exact Htrace|]. cbv zeta.
  split; [exact Hprefix|]. split; [exact Hzero|].
  split; [exact Hfail|exact Hdev].
Qed.


(** Everything a run of [spi_read_settings] does: it only issues read
    requests, leaves the device alone, and on success the struct it
    filled holds the four registers of the device. *)
Lemma spi_read_settings_run env fd s0 w :
  exists new,
    trace (snd (spi_read_settings env fd s0 w)) = trace w ++ new /\
    device (snd (spi_read_settings env fd s0 w)) = device w /\
    spi_settings_orig (snd (spi_read_settings env fd s0 w))
      = spi_settings_orig w /\
    closes_of new = [] /\
    Forall (fun c => is_write_req (fst c) = false) (ioctls_of new) /\
    (fst (fst (spi_read_settings env fd s0 w)) = 0 ->
     snd (fst (spi_read_settings env fd s0 w)) = device w).
Proof.
  unfold spi_read_settings, get_spi_mode, get_spi_is_lsb_first,
    get_spi_bits_per_word, get_spi_max_speed_hz, bind, sys_ioctl, get_device,
    printf, emit, pure.
  cbn [fst snd trace device spi_settings_orig].
  next_call; [next_call; [next_call; [next_call|]|]|].
  all: eexists; (split; [rewrite <- ?app_assoc; reflexivity|]).
  all: simpl; rewrite ?(proj2 (Z.eqb_neq _ 0)) by assumption.
  all: repeat match goal with |- _ /\ _ => split end; try reflexivity.
  all: try (repeat constructor).
  all: try (intros H; contradiction).
  intros _. destruct (device w); reflexivity.
Qed.

Lemma ioctls_of_app t1 t2 : ioctls_of (t1 ++ t2) = ioctls_of t1 ++ ioctls_of t2.
Proof. apply omap_app. Qed.

Lemma closes_of_app t1 t2 : closes_of (t1 ++ t2) = closes_of t1 ++ closes_of t2.
Proof. apply omap_app. Qed.

(** [spi_init] written out as the four ways it can end. *)
Lemma spi_init_unfold env device_name s w :
  let fd := env_open env (trace w) device_name in
  let w1 := mk_world (device w) (spi_settings_orig w)
              (trace w ++ [EvOpen device_name fd]) in
  let rd := spi_read_settings env fd (spi_settings_orig w) w1 in
  let w2 := mk_world (device (snd rd)) (snd (fst rd)) (trace (snd rd)) in
  let wr := spi_write_settings env fd s w2 in
  spi_init env device_name s w =
    if 0 >? fd then
      (fd, mk_world (device w) (spi_settings_orig w)
             (trace w1 ++
              [EvPrintf "spi_init: open failed with retval %d\n" [fd]]))
    else if negb (0 =? fst (fst rd)) then
      (-1, mk_world (device w2) (spi_settings_orig w2)
             ((trace w2 ++
               [EvPrintf "spi_init: failed to read SPI settings, code %d\n"
                         [fst (fst rd)]]) ++ [EvClose fd]))
    else if negb (0 =? fst wr) then
      (-1, mk_world (device (snd wr)) (spi_settings_orig (snd wr))
             ((trace (snd wr) ++
               [EvPrintf "spi_init: failed to write SPI settings, code %d\n"
                         [fst wr]]) ++ [EvClose fd]))
    else (fd, snd wr).
Proof.
  cbv zeta.
  unfold spi_init, bind, sys_open, get_orig, set_orig, printf, emit, sys_close,
    pure.
  cbn [fst snd trace device spi_settings_orig].
  destruct (0 >? _); [reflexivity|].
  destruct (negb _); [reflexivity|].
  destruct (negb _); reflexivity.
Qed.

(** C6.  The four outcomes of [spi_init].  [new] is what the trace gains
    after the [open] call.
    - The open fails: the open result is returned; no [ioctl] is issued.
    - The open succeeds, reading the settings fails: the handle is closed,
      -1 is returned (not the handle), no write request is issued.
    - The read succeeds, writing the settings fails: the handle is
      closed, -1 is returned.
    - Everything succeeds: the handle is returned and left open, and
      [spi_settings_orig] holds the registers the device had. *)
Theorem spi_init_outcomes env device_name s w :
  let fd := fst (sys_open env device_name w) in
  let w1 := snd (sys_open env device_name w) in
  let rd := spi_read_settings env fd (spi_settings_orig w1) w1 in
  let w2 := snd (set_orig (snd (fst rd)) (snd rd)) in
  let wr := spi_write_settings env fd s w2 in
  let res := spi_init env device_name s w in
  exists new,
    trace (snd res) = trace w ++ EvOpen device_name fd :: new /\
    (fd < 0 ->
       fst res = fd /\ ioctls_of new = [] /\ closes_of new = [] /\
       device (snd res) = device w /\
       spi_settings_orig (snd res) = spi_settings_orig w) /\
    (0 <= fd -> fst (fst rd) <> 0 ->
       fst res = -1 /\ fst res <> fd /\ closes_of new = [fd] /\
       Forall (fun c => is_write_req (fst c) = false) (ioctls_of new) /\
       device (snd res) = device w) /\
    (0 <= fd -> fst (fst rd) = 0 -> fst wr <> 0 ->
       fst res = -1 /\ fst res <> fd /\ closes_of new = [fd]) /\
    (0 <= fd -> fst (fst rd) = 0 -> fst wr = 0 ->
       fst res = fd /\ closes_of new = [] /\
       spi_settings_orig (snd res) = device w /\
       device (snd res) = s).
Proof.
  cbv zeta. rewrite spi_init_unfold. cbv zeta.
  unfold sys_open, set_orig. cbn [fst snd trace device spi_settings_orig].
  set (fd := env_open env (trace w) device_name).
  set (w1 := mk_world (device w) (spi_settings_orig w)
               (trace w ++ [EvOpen device_name fd])).
  destruct (spi_read_settings_run env fd (spi_settings_orig w) w1)
    as (newr & Htr & Hdevr & Horigr & Hclr & Hrdr & Hokr).
  set (rd := spi_read_settings env fd (spi_settings_orig w) w1) in *.
  set (w2 := mk_world (device (snd rd)) (snd (fst rd)) (trace (snd rd))).
  destruct (spi_write_settings_run env fd s w2)
    as (neww & Htw & _ & _ & _ & _ & Horigw & Hclw & Hokw).
  set (wr := spi_write_settings env fd s w2) in *.
  change (trace w1) with (trace w ++ [EvOpen device_name fd]) in *.
  change (device w1) with (device w) in *.
  change (spi_settings_orig w1) with (spi_settings_orig w) in *.
  change (trace w2) with (trace (snd rd)) in *.
  change (device w2) with (device (snd rd)) in *.
  change (spi_settings_orig w2) with (snd (fst rd)) in *.
  cbn [trace device spi_settings_orig] in *.
  destruct (Z.gtb_spec 0 fd) as [Hfd|Hfd].
  { exists [EvPrintf "spi_init: open failed with retval %d\n" [fd]].
    cbn [fst snd trace device spi_settings_orig].
    split; [rewrite <- app_assoc; reflexivity|].
    repeat split; try reflexivity; intros; lia. }
  destruct (Z.eq_dec (fst (fst rd)) 0) as [Erd|Erd].
  2: { rewrite (Z.eqb_sym 0), (proj2 (Z.eqb_neq _ 0)) by exact Erd.
       cbn [negb fst snd trace device spi_settings_orig].
       eexists. split.
       { rewrite Htr, <- !app_assoc. reflexivity. }
       rewrite !closes_of_app, !ioctls_of_app, Hclr.
       repeat split; try reflexivity; try lia; try contradiction;
         try assumption.
       simpl. rewrite app_nil_r. exact Hrdr. }
  rewrite Erd, Z.eqb_refl. cbn [negb].
  destruct (Z.eq_dec (fst wr) 0) as [Ewr|Ewr].
  2: { rewrite (Z.eqb_sym 0), (proj2 (Z.eqb_neq _ 0)) by exact Ewr.
       cbn [negb fst snd trace device spi_settings_orig].
       eexists. split.
       { rewrite Htw, Htr, <- !app_assoc. reflexivity. }
       rewrite !closes_of_app, Hclr, Hclw.
       repeat split; try reflexivity; try lia; try contradiction. }
  rewrite Ewr, Z.eqb_refl. cbn [negb fst snd].
  eexists. split.
  { rewrite Htw, Htr, <- !app_assoc. reflexivity. }
  rewrite !closes_of_app, Hclr, Hclw.
  repeat split; try reflexivity; try lia; try contradiction.
  - rewrite Horigw. apply Hokr, Erd.
  - apply Hokw, Ewr.
Qed.

(** ** Mean and standard deviation *)

(** The accumulation loop, entered at index [length pre] with [rest] still
    to read, adds the terms of [rest] from left to right. *)
Lemma sum_loop16_scan {D} {ops : DoubleOps D} (rest pre : list Z) :
  forall fuel vals cnt (term : Z -> D) acc,
  vals = pre ++ rest ->
  cnt = Z.of_nat (length vals) -> cnt <= INT_MAX ->
  (length rest < fuel)%nat ->
  sum_loop16 fuel vals cnt (Z.of_nat (length pre)) term acc
    = Some (foldl (fun a v => d_add a (term v)) acc rest).
Proof.
  revert pre. induction rest as [|v rest IH];
    intros pre fuel vals cnt term acc Hvals Hcnt Hmax Hfuel;
    (destruct fuel as [|fuel]; [simpl in Hfuel; lia|]);
    cbn [sum_loop16].
  - assert (length vals = length pre) by (rewrite Hvals, length_app; simpl; lia).
    destruct (Z.ltb_spec (Z.of_nat (length pre)) cnt); [lia|]. reflexivity.
  - assert (length vals = (length pre + S (length rest))%nat)
      by (rewrite Hvals, length_app; reflexivity).
    destruct (Z.ltb_spec (Z.of_nat (length pre)) cnt); [|lia].
    rewrite array_get_lookup. rewrite Hvals at 1.
    rewrite lookup_app_r by lia. rewrite Nat.sub_diag. cbn [lookup list_lookup].
    rewrite to_int_small by (unfold INT_MIN, INT_MAX in *; lia).
    replace (Z.of_nat (length pre) + 1) with (Z.of_nat (length (pre ++ [v])))
      by (rewrite length_app; simpl; lia).
    rewrite (IH (pre ++ [v])); try assumption.
    + reflexivity.
    + rewrite <- app_assoc. exact Hvals.
    + simpl in Hfuel. lia.
Qed.

Lemma foldl_Rplus (f : Z -> R) (l : list Z) (a : R) :
  foldl (fun a v => Rplus a (f v)) a l = Rplus a (sum_R (map f l)).
Proof.
  revert a. induction l as [|v l IH]; intros a; simpl.
  - rewrite Rplus_0_r. reflexivity.
  - rewrite IH. apply Rplus_assoc.
Qed.

Lemma average16_exact vals cnt :
  cnt = Z.of_nat (length vals) -> cnt <= INT_MAX ->
  average16 (ops := exact_reals) vals cnt = Some (mean_R vals).
Proof.
  intros Hcnt Hmax. unfold average16.
  rewrite (sum_loop16_scan vals [] (S (length vals)) vals cnt);
    [|reflexivity|exact Hcnt|exact Hmax|lia].
  cbn [d_add d_of_Z d_div exact_reals]. rewrite foldl_Rplus, Rplus_0_l, Hcnt.
  reflexivity.
Qed.

Lemma stdev16_exact vals cnt :
  cnt = Z.of_nat (length vals) -> cnt <= INT_MAX ->
  stdev16 (ops := exact_reals) vals cnt = Some (pstdev_R vals).
Proof.
  intros Hcnt Hmax. unfold stdev16.
  rewrite (average16_exact vals cnt Hcnt Hmax).
  rewrite (sum_loop16_scan vals [] (S (length vals)) vals cnt);
    [|reflexivity|exact Hcnt|exact Hmax|lia].
  cbn [d_add d_of_Z d_div d_sub d_pow2 d_sqrt exact_reals].
  rewrite foldl_Rplus, Rplus_0_l, Hcnt. reflexivity.
Qed.

(** C8.  Run in exact arithmetic, [average16] is the arithmetic mean of
    its [cnt] values and [stdev16] their population standard deviation
    (divisor [cnt]); run in binary64 on {2, 4, 4, 4, 5, 5, 7, 9} they
    return 5.0 and 2.0. *)
Theorem average16_stdev16_population :
  (forall vals cnt,
     cnt = Z.of_nat (length vals) -> 1 <= cnt <= INT_MAX ->
     average16 (ops := exact_reals) vals cnt = Some (mean_R vals) /\
     stdev16 (ops := exact_reals) vals cnt = Some (pstdev_R vals)) /\
  average16 (ops := binary64) [2; 4; 4; 4; 5; 5; 7; 9] 8 = Some (b64_of_Z 5) /\
  stdev16 (ops := binary64) [2; 4; 4; 4; 5; 5; 7; 9] 8 = Some (b64_of_Z 2).
Proof.
  split.
  - intros vals cnt Hcnt Hrange. split.
    + apply average16_exact; [exact Hcnt|lia].
    + apply stdev16_exact; [exact Hcnt|lia].
  - split; vm_compute; reflexivity.
Qed.

(** ** The theorems at concrete inputs *)

Lemma read_mcp3301_single_decode_witness :
  env_read (env_fixed 3 (fun _ => 0) (2, (x11, x00))) (trace world0) 3
    = (2, (x11, x00)) /\
  fst (read_mcp3301_single (env_fixed 3 (fun _ => 0) (2, (x11, x00))) 3 world0)
    = -3840.
Proof.
  split; [reflexivity|].
  exact (read_mcp3301_single_decode
           (env_fixed 3 (fun _ => 0) (2, (x11, x00))) 3 world0 x11 x00 eq_refl).
Defined.

Lemma read_mcp3301_single_short_read_witness :
  fst (env_read (env_fixed 3 (fun _ => 0) (1, (x11, x00))) (trace world0) 3) <> 2 /\
  fst (read_mcp3301_single (env_fixed 3 (fun _ => 0) (1, (x11, x00))) 3 world0)
    = -32767.
Proof.
  split; [simpl; lia|].
  refine (proj1 (read_mcp3301_single_short_read
                   (env_fixed 3 (fun _ => 0) (1, (x11, x00))) 3 world0 _)).
  simpl; lia.
Defined.

Lemma read_mcp3301_single_range_witness :
  env_read (env_fixed 3 (fun _ => 0) (2, (x10, x00))) (trace world0) 3
    = (2, (x10, x00)) /\
  (-4096 <= fst (read_mcp3301_single
                   (env_fixed 3 (fun _ => 0) (2, (x10, x00))) 3 world0) <= 4095 /\
   fst (read_mcp3301_single (env_fixed 3 (fun _ => 0) (2, (x10, x00))) 3 world0)
     <> to_int16 0x8001).
Proof.
  split; [reflexivity|].
  exact (read_mcp3301_single_range
           (env_fixed 3 (fun _ => 0) (2, (x10, x00))) 3 world0 x10 x00 eq_refl).
Defined.

Lemma read_mcp3301_single_ignores_top_bits_witness :
  byte_val x11 = Z.land (byte_val xf1) 0x1F /\
  fst (read_mcp3301_single (env_fixed 3 (fun _ => 0) (2, (xf1, x00))) 3 world0)
    = fst (read_mcp3301_single (env_fixed 3 (fun _ => 0) (2, (x11, x00))) 3 world0).
Proof.
  split; [reflexivity|].
  exact (read_mcp3301_single_ignores_top_bits
           (env_fixed 3 (fun _ => 0) (2, (xf1, x00))) 3 world0
           (env_fixed 3 (fun _ => 0) (2, (x11, x00))) 3 world0
           xf1 x11 x00 eq_refl eq_refl eq_refl).
Defined.

Lemma filter_avg_trimmed_mean_witness :
  fb_wf 16 spread_buffer /\
  sum_Z (data spread_buffer) - max_Z (data spread_buffer)
    - min_Z (data spread_buffer) = 700 /\
  filter_avg (ops := binary64) spread_buffer = Some (b64_of_Z 50).
Proof.
  split; [split; reflexivity|]. split; [reflexivity|].
  apply (proj1 filter_avg_trimmed_mean _ binary64 spread_buffer 16).
  - split; reflexivity.
  - unfold INT_MAX. lia.
  - unfold INT_MIN, INT_MAX. simpl. lia.
Defined.

Lemma fb_push_wraps_around_witness :
  1 <= 3 <= INT_MAX /\ Z.of_nat (length [11; 22; 33]) = 3 /\
  exists fb',
    fb_push_all (fb_new 3) ([11; 22; 33] ++ [44]) = Some fb' /\
    data fb' !! 0%nat = Some 44 /\ location fb' = 1 mod 3.
Proof.
  split; [unfold INT_MAX; lia|]. split; [reflexivity|].
  apply (fb_push_wraps_around 3 [11; 22; 33] 44).
  - unfold INT_MAX. lia.
  - reflexivity.
Defined.

Lemma fb_location_invariant_witness :
  1 <= 16 <= INT_MAX /\
  fb_inv (fb_new 16) /\
  exists fb',
    fb_push (fb_new 16) 5 = Some fb' /\ fb_wf 16 fb' /\ fb_inv fb' /\
    location fb' = (location (fb_new 16) + 1) mod 16 /\
    data fb' = <[Z.to_nat (location (fb_new 16)) := 5]> (data (fb_new 16)).
Proof.
  assert (H16 : 1 <= 16 <= INT_MAX) by (unfold INT_MAX; lia).
  split; [exact H16|].
  destruct (fb_location_invariant 16 H16) as [(_ & _ & Hwf & Hinv) Hpush].
  split; [exact Hinv|]. exact (Hpush (fb_new 16) 5 Hwf Hinv).
Defined.

Lemma spi_init_outcomes_witness :
  fst (spi_init (env_fixed 3 (fun _ => 0) (2, (x00, x00)))
         device_path spi_settings_desired world0) = 3 /\
  spi_settings_orig
    (snd (spi_init (env_fixed 3 (fun _ => 0) (2, (x00, x00)))
            device_path spi_settings_desired world0)) = device world0 /\
  device
    (snd (spi_init (env_fixed 3 (fun _ => 0) (2, (x00, x00)))
            device_path spi_settings_desired world0)) = spi_settings_desired.
Proof.
  destruct (spi_init_outcomes (env_fixed 3 (fun _ => 0) (2, (x00, x00)))
              device_path spi_settings_desired world0)
    as (new & _ & _ & _ & _ & Hok).
  destruct Hok as (Hret & _ & Horig & Hdev);
    [simpl; lia|reflexivity|reflexivity|].
  split; [exact Hret|]. split; [exact Horig|exact Hdev].
Defined.

Lemma spi_write_settings_short_circuit_witness :
  fst (spi_write_settings (env_fixed 3 refuse_bits_per_word (2, (x00, x00)))
         3 spi_settings_desired world0) = -1 /\
  exists new,
    trace (snd (spi_write_settings
                  (env_fixed 3 refuse_bits_per_word (2, (x00, x00)))
                  3 spi_settings_desired world0)) = trace world0 ++ new /\
    device (snd (spi_write_settings
                   (env_fixed 3 refuse_bits_per_word (2, (x00, x00)))
                   3 spi_settings_desired world0))
      = applied (ioctls_of new) (device world0).
Proof.
  split; [reflexivity|].
  destruct (spi_write_settings_short_circuit
              (env_fixed 3 refuse_bits_per_word (2, (x00, x00)))
              3 spi_settings_desired world0)
    as (new & Htrace & _ & _ & _ & Hdev).
  exists new. split; [exact Htrace|exact Hdev].
Defined.

Lemma average16_stdev16_population_witness :
  8 = Z.of_nat (length [2; 4; 4; 4; 5; 5; 7; 9]) /\ 1 <= 8 <= INT_MAX /\
  average16 (ops := exact_reals) [2; 4; 4; 4; 5; 5; 7; 9] 8
    = Some (mean_R [2; 4; 4; 4; 5; 5; 7; 9]) /\
  stdev16 (ops := exact_reals) [2; 4; 4; 4; 5; 5; 7; 9] 8
    = Some (pstdev_R [2; 4; 4; 4; 5; 5; 7; 9]).
Proof.
  assert (H8 : 1 <= 8 <= INT_MAX) by (unfold INT_MAX; lia).
  split; [reflexivity|]. split; [exact H8|].
  exact (proj1 average16_stdev16_population
           [2; 4; 4; 4; 5; 5; 7; 9] 8 eq_refl H8).
Defined.

(* ===================================================================== *)
(** * Further properties of the SPI layer *)

(** X1.  [spi_read_settings] issues its reads in the order mode, bit ordering,
    word size, max speed and stops at the first one that fails, returning
    its code; the fields read before the failure are stored in the
    caller's struct, the others keep what the struct held; the device is
    not modified. *)
Theorem spi_read_settings_short_circuit env fd s0 w :
  exists new,
    trace (snd (spi_read_settings env fd s0 w)) = trace w ++ new /\
    let ret := fst (fst (spi_read_settings env fd s0 w)) in
    let out := snd (fst (spi_read_settings env fd s0 w)) in
    let calls := ioctls_of new in
    map fst calls `prefix_of` read_requests /\
    (ret = 0 <-> length calls = 4%nat /\ Forall (fun c => snd c = 0) calls) /\
    (ret <> 0 ->
       exists done req,
         calls = done ++ [(req, ret)] /\ Forall (fun c => snd c = 0) done) /\
    out = stored calls (device w) s0 /\
    device (snd (spi_read_settings env fd s0 w)) = device w.
Proof.
  unfold spi_read_settings, get_spi_mode, get_spi_is_lsb_first,
    get_spi_bits_per_word, get_spi_max_speed_hz, bind, sys_ioctl, get_device,
    printf, emit, pure.
  cbn [fst snd trace device spi_settings_orig].
  next_call; [next_call; [next_call; [next_call|]|]|].
  all: eexists; (split; [rewrite <- ?app_assoc; reflexivity|]).
  all: simpl; rewrite ?(proj2 (Z.eqb_neq _ 0)) by assumption.
  all: repeat match goal with |- _ /\ _ => split end; try reflexivity.
  all: try (eexists; reflexivity).
  all: try (split;
            [intros H; first [contradiction
                             |split; [reflexivity|repeat constructor]]
            |intros [Hlen HF];
             first [reflexivity
                   |discriminate Hlen
                   |rewrite !Forall_cons in HF; simpl in HF; tauto]]).
  all: try (destruct s0; reflexivity).
  all: intros H;
    first [exfalso; apply H; reflexivity
          |eexists [], _; split; [reflexivity|repeat constructor]
          |eexists [_], _; split; [reflexivity|repeat constructor]
          |eexists [_; _], _; split; [reflexivity|repeat constructor]
          |eexists [_; _; _], _; split; [reflexivity|repeat constructor]].
Qed.

(** X2.  Settings round trip: when [spi_write_settings] succeeds and a
    following [spi_read_settings] succeeds, the struct read back is the one
    written, whatever it held before. *)
Theorem spi_write_then_read_round_trip env fd s s0 w :
  fst (spi_write_settings env fd s w) = 0 ->
  fst (fst (spi_read_settings env fd s0
              (snd (spi_write_settings env fd s w)))) = 0 ->
  snd (fst (spi_read_settings env fd s0
              (snd (spi_write_settings env fd s w)))) = s.
Proof.
  intros Hw Hr.
  destruct (spi_write_settings_run env fd s w)
    as (_ & _ & _ & _ & _ & _ & _ & _ & Hdev).
  destruct (spi_read_settings_run env fd s0
              (snd (spi_write_settings env fd s w)))
    as (_ & _ & _ & _ & _ & _ & Hout).
  rewrite (Hout Hr). exact (Hdev Hw).
Qed.

(** [spi_shutdown] written out by the result of its write-back. *)
Lemma spi_shutdown_unfold env fd w :
  let wr := spi_write_settings env fd (spi_settings_orig w) w in
  spi_shutdown env fd w =
    (tt,
     if negb (0 =? fst wr) then
       mk_world (device (snd wr)) (spi_settings_orig (snd wr))
         ((trace (snd wr) ++
           [EvPrintf "spi_shutdown: failed to write SPI settings, code %d\n"
                     [fst wr]]) ++ [EvClose fd])
     else
       mk_world (device (snd wr)) (spi_settings_orig (snd wr))
         (trace (snd wr) ++ [EvClose fd])).
Proof.
  cbv zeta.
  unfold spi_shutdown, bind, get_orig, printf, emit, sys_close, pure.
  cbn [fst snd trace device spi_settings_orig].
  destruct (negb _); reflexivity.
Qed.

(** X3.  [spi_shutdown] closes the handle exactly once, as the last thing it
    does, whether or not the write-back succeeds; it issues write requests
    only, with the values of [spi_settings_orig]; when the write-back
    succeeds the device holds [spi_settings_orig]; when it fails the
    failure line with its code is printed before the close. *)
Theorem spi_shutdown_always_closes env fd w :
  let ret := fst (spi_write_settings env fd (spi_settings_orig w) w) in
  let w' := snd (spi_shutdown env fd w) in
  exists new,
    trace w' = trace w ++ new ++ [EvClose fd] /\
    closes_of new = [] /\
    map fst (ioctls_of new) `prefix_of` write_requests (spi_settings_orig w) /\
    (ret = 0 -> device w' = spi_settings_orig w) /\
    (ret <> 0 ->
       last new =
         Some (EvPrintf "spi_shutdown: failed to write SPI settings, code %d\n"
                        [ret])) /\
    spi_settings_orig w' = spi_settings_orig w.
Proof.
  cbv zeta. rewrite spi_shutdown_unfold. cbv zeta. cbn [snd].
  destruct (spi_write_settings_run env fd (spi_settings_orig w) w)
    as (neww & Htr & Hpre & _ & _ & _ & Horig & Hcl & Hdev).
  cbv zeta in *.
  destruct (Z.eq_dec (fst (spi_write_settings env fd (spi_settings_orig w) w)) 0)
    as [E|E].
  - rewrite E, Z.eqb_refl. cbn [negb trace device spi_settings_orig].
    exists neww. rewrite Htr, <- app_assoc.
    repeat split; try assumption; try (intros; contradiction).
    intros _. apply Hdev, E.
  - rewrite (Z.eqb_sym 0), (proj2 (Z.eqb_neq _ 0)) by exact E.
    cbn [negb trace device spi_settings_orig].
    eexists (neww ++ [EvPrintf _ _]). rewrite Htr, <- !app_assoc.
    split; [reflexivity|]. rewrite closes_of_app, ioctls_of_app, Hcl.
    simpl. rewrite app_nil_r.
    repeat split; try assumption; try (intros; contradiction).
    intros _. apply last_snoc.
Qed.

(** A non-negative result of [spi_init] means that the open, the four
    reads and the four writes all succeeded. *)
Lemma spi_init_success env device_name s w :
  0 <= fst (spi_init env device_name s w) ->
  fst (spi_init env device_name s w) = env_open env (trace w) device_name /\
  spi_settings_orig (snd (spi_init env device_name s w)) = device w /\
  device (snd (spi_init env device_name s w)) = s /\
  exists new,
    trace (snd (spi_init env device_name s w))
      = trace w ++ EvOpen device_name (env_open env (trace w) device_name) :: new /\
    closes_of new = [].
Proof.
  rewrite spi_init_unfold. cbv zeta.
  set (fd := env_open env (trace w) device_name).
  set (w1 := mk_world (device w) (spi_settings_orig w)
               (trace w ++ [EvOpen device_name fd])).
  destruct (spi_read_settings_run env fd (spi_settings_orig w) w1)
    as (newr & Htr & Hdevr & Horigr & Hclr & _ & Hokr).
  set (rd := spi_read_settings env fd (spi_settings_orig w) w1) in *.
  set (w2 := mk_world (device (snd rd)) (snd (fst rd)) (trace (snd rd))).
  destruct (spi_write_settings_run env fd s w2)
    as (neww & Htw & _ & _ & _ & _ & Horigw & Hclw & Hokw).
  set (wr := spi_write_settings env fd s w2) in *.
  change (trace w1) with (trace w ++ [EvOpen device_name fd]) in *.
  change (device w1) with (device w) in *.
  change (trace w2) with (trace (snd rd)) in *.
  change (spi_settings_orig w2) with (snd (fst rd)) in *.
  cbv zeta in *.
  destruct (Z.gtb_spec 0 fd) as [Hfd|Hfd]; [cbn [fst]; lia|].
  destruct (Z.eq_dec (fst (fst rd)) 0) as [Erd|Erd].
  2: { rewrite (Z.eqb_sym 0), (proj2 (Z.eqb_neq _ 0)) by exact Erd.
       cbn [negb fst]. lia. }
  rewrite Erd, Z.eqb_refl. cbn [negb].
  destruct (Z.eq_dec (fst wr) 0) as [Ewr|Ewr].
  2: { rewrite (Z.eqb_sym 0), (proj2 (Z.eqb_neq _ 0)) by exact Ewr.
       cbn [negb fst]. lia. }
  rewrite Ewr, Z.eqb_refl. cbn [negb fst snd]. intros _.
  split; [reflexivity|]. split; [rewrite Horigw; apply Hokr, Erd|].
  split; [apply Hokw, Ewr|].
  exists (newr ++ neww). split.
  - rewrite Htw, Htr, <- !app_assoc. reflexivity.
  - rewrite closes_of_app, Hclr, Hclw. reflexivity.
Qed.

(** X4.  Save and restore: after a successful [spi_init], a [spi_shutdown] of
    the handle whose write-back succeeds leaves the device with the
    registers it had before [spi_init], and the handle closed. *)
Theorem spi_init_then_shutdown_restores env device_name s w :
  let r := spi_init env device_name s w in
  0 <= fst r ->
  fst (spi_write_settings env (fst r) (spi_settings_orig (snd r)) (snd r)) = 0 ->
  device (snd (spi_shutdown env (fst r) (snd r))) = device w /\
  closes_of (trace (snd (spi_shutdown env (fst r) (snd r))))
    = closes_of (trace w) ++ [fst r].
Proof.
  cbv zeta. intros Hinit Hwb.
  destruct (spi_init_success env device_name s w Hinit)
    as (Hfd & Horig & _ & new & Htr & Hcl).
  rewrite spi_shutdown_unfold. cbv zeta. cbn [snd].
  rewrite Hwb, Z.eqb_refl. cbn [negb device trace].
  destruct (spi_write_settings_run env (fst (spi_init env device_name s w))
              (spi_settings_orig (snd (spi_init env device_name s w)))
              (snd (spi_init env device_name s w)))
    as (neww & Htw & _ & _ & _ & _ & _ & Hclw & Hdev).
  cbv zeta in *. split.
  - rewrite (Hdev Hwb). exact Horig.
  - rewrite Htw, Htr, !closes_of_app.
    change (EvOpen device_name (env_open env (trace w) device_name) :: new)
      with ([EvOpen device_name (env_open env (trace w) device_name)] ++ new).
    rewrite closes_of_app, Hcl, Hclw. simpl.
    rewrite !app_nil_r. reflexivity.
Qed.

(** X5.  The one saved-settings slot: a second successful [spi_init] overwrites
    [spi_settings_orig] with what the first one configured, so the
    registers the device had before the first call are no longer known to
    the program, and a [spi_shutdown] of the first handle writes the first
    call's settings. *)
Theorem spi_init_twice_loses_original env name1 name2 s1 s2 w :
  let r1 := spi_init env name1 s1 w in
  let r2 := spi_init env name2 s2 (snd r1) in
  0 <= fst r1 -> 0 <= fst r2 ->
  spi_settings_orig (snd r1) = device w /\
  spi_settings_orig (snd r2) = s1 /\
  (fst (spi_write_settings env (fst r1) (spi_settings_orig (snd r2)) (snd r2)) = 0 ->
   device (snd (spi_shutdown env (fst r1) (snd r2))) = s1).
Proof.
  cbv zeta. intros H1 H2.
  destruct (spi_init_success env name1 s1 w H1) as (_ & Horig1 & Hdev1 & _).
  destruct (spi_init_success env name2 s2 _ H2) as (_ & Horig2 & _ & _).
  split; [exact Horig1|]. split; [rewrite Horig2; exact Hdev1|].
  intros Hwb. rewrite spi_shutdown_unfold. cbv zeta. cbn [snd].
  rewrite Hwb, Z.eqb_refl. cbn [negb device].
  destruct (spi_write_settings_run env (fst (spi_init env name1 s1 w))
              (spi_settings_orig (snd (spi_init env name2 s2
                                         (snd (spi_init env name1 s1 w)))))
              (snd (spi_init env name2 s2 (snd (spi_init env name1 s1 w)))))
    as (_ & _ & _ & _ & _ & _ & _ & _ & Hdev).
  cbv zeta in Hdev. rewrite (Hdev Hwb), Horig2. exact Hdev1.
Qed.


Lemma reads_of_app t1 t2 : reads_of (t1 ++ t2) = reads_of t1 ++ reads_of t2.
Proof. apply omap_app. Qed.



(* ===================================================================== *)
(** * Further properties of the decode *)

Lemma shiftl8_lor (h b : Z) :
  0 <= b < 256 -> Z.lor (Z.shiftl h 8) b = h * 256 + b.
Proof.
  intros Hb.
  assert (Hland : Z.land (Z.shiftl h 8) b = 0).
  { apply Z.bits_inj'. intros n Hn.
    rewrite Z.land_spec, Z.bits_0.
    destruct (Z.lt_ge_cases n 8).
    - rewrite Z.shiftl_spec_low by lia. reflexivity.
    - rewrite <- (Z.mod_small b (2 ^ 8)) by (simpl; lia).
      rewrite Z.mod_pow2_bits_high by lia. apply andb_false_r. }
  rewrite <- Z.lxor_lor by exact Hland.
  rewrite <- Z.add_nocarry_lxor by exact Hland.
  rewrite Z.shiftl_mul_pow2 by lia. reflexivity.
Qed.

Lemma byte_bit4 b :
  (Z.land (byte_val b) 0x10 =? 0) = ((byte_val b / 16) mod 2 =? 0).
Proof. destruct b; reflexivity. Qed.

(** The reading as arithmetic on the 16-bit word [byte0 * 256 + byte1]. *)
Lemma read_mcp3301_single_word env fd w byte0 byte1 :
  env_read env (trace w) fd = (2, (byte0, byte1)) ->
  fst (read_mcp3301_single env fd w) =
    wrap_signed 13 (byte_val byte0 * 256 + byte_val byte1).
Proof.
  intros H. rewrite (read_mcp3301_single_success env fd w byte0 byte1 H).
  unfold reconstructed.
  pose proof (byte_val_range byte0) as H0.
  pose proof (byte_val_range byte1) as H1.
  rewrite shiftl8_lor by exact H1.
  change 0x0F with (Z.ones 4). rewrite Z.land_ones by lia.
  rewrite byte_bit4. unfold wrap_signed.
  change (2 ^ (13 - 1)) with 4096. change (2 ^ 13) with 8192.
  change (2 ^ 4) with 16.
  destruct (Z.eqb_spec ((byte_val byte0 / 16) mod 2) 0) as [E|E];
    Z.div_mod_to_equations; lia.
Qed.

(** X7.  The decode is sign extension: the reading is the 13-bit
    two's-complement value of the low 13 bits of the big-endian word
    [byte0 * 256 + byte1]. *)
Theorem read_mcp3301_single_sign_extends env fd w byte0 byte1 :
  env_read env (trace w) fd = (2, (byte0, byte1)) ->
  fst (read_mcp3301_single env fd w) =
    wrap_signed 13 (byte_val byte0 * 256 + byte_val byte1) /\
  fst (read_mcp3301_single env fd w) mod 2 ^ 13 =
    (byte_val byte0 * 256 + byte_val byte1) mod 2 ^ 13.
Proof.
  intros H. rewrite (read_mcp3301_single_word env fd w byte0 byte1 H).
  split; [reflexivity|].
  unfold wrap_signed. change (2 ^ (13 - 1)) with 4096. change (2 ^ 13) with 8192.
  Z.div_mod_to_equations; lia.
Qed.

Lemma byte_val_of_Z z : byte_val (byte_of_Z z) = z mod 256.
Proof.
  unfold byte_of_Z, byte_val.
  pose proof (Z.mod_pos_bound z 256 ltac:(lia)) as Hz.
  pose proof (Byte.to_of_N_option_map (Z.to_N (z mod 256))) as Hb.
  destruct (N.leb_spec (Z.to_N (z mod 256)) 255) as [_|Hgt]; [|lia].
  destruct (Byte.of_N (Z.to_N (z mod 256))) as [b|]; [|discriminate].
  injection Hb as ->. apply Z2N.id. lia.
Qed.

(** X8.  No code is lost and none is confused: every value of -4096 .. 4095
    is the reading of the byte pair that encodes it, and two transfers
    give the same reading exactly when their words agree on the low 13
    bits. *)
Theorem read_mcp3301_single_bijective env fd w byte0 byte1 :
  env_read env (trace w) fd = (2, (byte0, byte1)) ->
  (forall v, -4096 <= v <= 4095 ->
     (byte0, byte1) = mcp3301_encode v ->
     fst (read_mcp3301_single env fd w) = v) /\
  (forall env' fd' w' byte0' byte1',
     env_read env' (trace w') fd' = (2, (byte0', byte1')) ->
     (fst (read_mcp3301_single env fd w) = fst (read_mcp3301_single env' fd' w')
      <-> (byte_val byte0 * 256 + byte_val byte1) mod 8192
          = (byte_val byte0' * 256 + byte_val byte1') mod 8192)).
Proof.
  intros H. rewrite (read_mcp3301_single_word env fd w byte0 byte1 H). split.
  - intros v Hv Henc. unfold mcp3301_encode in Henc.
    injection Henc as -> ->. rewrite !byte_val_of_Z.
    unfold wrap_signed. change (2 ^ (13 - 1)) with 4096.
    change (2 ^ 13) with 8192.
    Z.div_mod_to_equations; lia.
  - intros env' fd' w' byte0' byte1' H'.
    rewrite (read_mcp3301_single_word env' fd' w' byte0' byte1' H').
    unfold wrap_signed. change (2 ^ (13 - 1)) with 4096.
    change (2 ^ 13) with 8192.
    split; intros; Z.div_mod_to_equations; lia.
Qed.

(* ===================================================================== *)
(** * Further properties of the filter buffer *)

Lemma mod_differs a b N :
  0 <= a < b -> b - a < N -> a mod N <> b mod N.
Proof.
  intros Hab HN E.
  assert (H0 : (b - a) mod N = 0).
  { rewrite Zminus_mod, E, Z.sub_diag. apply Z.mod_0_l. lia. }
  rewrite Z.mod_small in H0 by lia. lia.
Qed.

(** What a buffer holds after any sequence of pushes into a fresh one: the
    [j]-th value pushed sits in slot [j mod N] as long as fewer than [N]
    values were pushed after it, and the slots never reached still hold
    the 0 of [fb_new]. *)
Lemma fb_push_all_contents N (vals : list Z) :
  1 <= N <= INT_MAX ->
  exists fb',
    fb_push_all (fb_new N) vals = Some fb' /\
    fb_wf N fb' /\ fb_inv fb' /\
    location fb' = Z.of_nat (length vals) mod N /\
    (forall (j : nat) v,
       vals !! j = Some v ->
       Z.of_nat (length vals) - N <= Z.of_nat j ->
       data fb' !! Z.to_nat (Z.of_nat j mod N) = Some v) /\
    (forall i : Z,
       Z.of_nat (length vals) <= i < N -> data fb' !! Z.to_nat i = Some 0).
Proof.
  intros HN. induction vals as [|x vals IH] using rev_ind.
  - exists (fb_new N).
    assert (Hwf : fb_wf N (fb_new N)) by (apply fb_new_wf; lia).
    split; [reflexivity|]. split; [exact Hwf|].
    split; [unfold fb_inv; cbn; lia|].
    split; [cbn; rewrite Z.mod_0_l by lia; reflexivity|].
    split; [intros j v Hj; rewrite lookup_nil in Hj; discriminate|].
    intros i Hi. rewrite fb_new_data by lia.
    apply lookup_replicate_2. lia.
  - destruct IH as (fb1 & Hrun & Hwf1 & Hinv1 & Hloc1 & Hkeep & Hzero).
    rewrite fb_push_all_app, Hrun. cbn [fb_push_all].
    rewrite (fb_push_spec N fb1 x HN Hwf1 Hinv1).
    eexists. split; [reflexivity|].
    pose proof (Z.mod_pos_bound (Z.of_nat (length vals)) N ltac:(lia)) as Hm.
    destruct Hwf1 as [Hlen1 Hdata1].
    assert (Hlenx : Z.of_nat (length (vals ++ [x])) = Z.of_nat (length vals) + 1)
      by (rewrite length_app; simpl; lia).
    split; [split; cbn [data data_len]; [reflexivity|
              rewrite length_insert; exact Hdata1]|].
    pose proof (Z.mod_pos_bound (location fb1 + 1) N ltac:(lia)) as Hm'.
    split; [unfold fb_inv; cbn [location data_len]; lia|].
    cbn [data location]. rewrite Hlenx.
    split; [rewrite Hloc1, Zplus_mod_idemp_l; reflexivity|].
    split.
    + intros j v Hj Hrecent.
      destruct (Nat.eq_dec j (length vals)) as [->|Hne].
      * rewrite lookup_app_r, Nat.sub_diag in Hj by lia.
        injection Hj as <-. rewrite Hloc1.
        apply list_lookup_insert_eq. lia.
      * assert (Hjlt : (j < length vals)%nat).
        { apply lookup_lt_Some in Hj. rewrite length_app in Hj. simpl in Hj.
          lia. }
        rewrite lookup_app_l in Hj by exact Hjlt.
        rewrite list_lookup_insert_ne.
        -- apply (Hkeep j v Hj). lia.
        -- rewrite Hloc1. intros E. apply Z2Nat.inj in E; try lia.
           ++ symmetry in E. revert E. apply mod_differs; lia.
           ++ apply Z.mod_pos_bound. lia.
    + intros i Hi. rewrite list_lookup_insert_ne.
      * apply Hzero. lia.
      * rewrite Hloc1, Z.mod_small by lia. intros E.
        apply Z2Nat.inj in E; lia.
Qed.

(** X9.  The ring buffer keeps the last [N] values pushed: after any sequence
    of pushes into a fresh buffer of length [N], the [j]-th value pushed
    is found in slot [j mod N] unless [N] or more values were pushed
    after it, and a slot that no push has reached yet still holds 0. *)
Theorem fb_push_all_keeps_last N (vals : list Z) :
  1 <= N <= INT_MAX ->
  exists fb',
    fb_push_all (fb_new N) vals = Some fb' /\
    location fb' = Z.of_nat (length vals) mod N /\
    (forall (j : nat) v,
       vals !! j = Some v ->
       Z.of_nat (length vals) - N <= Z.of_nat j ->
       data fb' !! Z.to_nat (Z.of_nat j mod N) = Some v) /\
    (forall i : Z,
       Z.of_nat (length vals) <= i < N -> data fb' !! Z.to_nat i = Some 0).
Proof.
  intros HN.
  destruct (fb_push_all_contents N vals HN)
    as (fb' & Hrun & _ & _ & Hloc & Hkeep & Hzero).
  exists fb'. repeat split; assumption.
Qed.

Lemma sum_Z_perm (l1 l2 : list Z) : l1 ≡ₚ l2 -> sum_Z l1 = sum_Z l2.
Proof.
  unfold sum_Z. induction 1 as [|x l1 l2 _ IH|x y l|l1 l2 l3 _ IH1 _ IH2];
    simpl; lia.
Qed.

Lemma max_Z_perm (l1 l2 : list Z) : l1 ≡ₚ l2 -> max_Z l1 = max_Z l2.
Proof.
  intros Hp. destruct l1 as [|x l1].
  - apply Permutation_nil in Hp. subst. reflexivity.
  - assert (H2 : l2 <> []) by (intros ->; symmetry in Hp;
                               apply Permutation_nil in Hp; discriminate).
    apply Z.le_antisymm; apply max_Z_upper.
    + rewrite <- Hp. apply max_Z_elem. discriminate.
    + rewrite Hp. apply max_Z_elem. exact H2.
Qed.

Lemma min_Z_perm (l1 l2 : list Z) : l1 ≡ₚ l2 -> min_Z l1 = min_Z l2.
Proof.
  intros Hp. destruct l1 as [|x l1].
  - apply Permutation_nil in Hp. subst. reflexivity.
  - assert (H2 : l2 <> []) by (intros ->; symmetry in Hp;
                               apply Permutation_nil in Hp; discriminate).
    apply Z.le_antisymm; apply min_Z_lower.
    + rewrite Hp. apply min_Z_elem. exact H2.
    + rewrite <- Hp. apply min_Z_elem. discriminate.
Qed.

(** X10.  The trimmed average looks at the samples as a bag: two buffers of the
    same length that hold the same values in any order, with the write
    position anywhere, have the same [filter_avg]. *)
Theorem filter_avg_order_independent {D} {ops : DoubleOps D} fb1 fb2 L :
  fb_wf L fb1 -> fb_wf L fb2 -> 1 <= L <= INT_MAX ->
  data fb1 ≡ₚ data fb2 ->
  filter_avg fb1 = filter_avg fb2.
Proof.
  intros Hwf1 Hwf2 HL Hp.
  rewrite (filter_avg_value fb1 L Hwf1 HL), (filter_avg_value fb2 L Hwf2 HL).
  rewrite (sum_Z_perm _ _ Hp), (max_Z_perm _ _ Hp), (min_Z_perm _ _ Hp).
  reflexivity.
Qed.

Lemma max_Z_cons x (l : list Z) : l <> [] -> max_Z (x :: l) = Z.max x (max_Z l).
Proof.
  intros Hl. pose proof (max_Z_elem l Hl) as He.
  apply Z.le_antisymm.
  - pose proof (max_Z_elem (x :: l) ltac:(discriminate)) as Hin.
    apply elem_of_cons in Hin as [->|Hin]; [lia|].
    pose proof (max_Z_upper l _ Hin). lia.
  - apply Z.max_lub; apply max_Z_upper; [left|right; exact He].
Qed.

Lemma min_Z_cons x (l : list Z) : l <> [] -> min_Z (x :: l) = Z.min x (min_Z l).
Proof.
  intros Hl. pose proof (min_Z_elem l Hl) as He.
  apply Z.le_antisymm.
  - apply Z.min_glb; apply min_Z_lower; [left|right; exact He].
  - pose proof (min_Z_elem (x :: l) ltac:(discriminate)) as Hin.
    apply elem_of_cons in Hin as [->|Hin]; [lia|].
    pose proof (min_Z_lower l _ Hin). lia.
Qed.

(** Taking one maximum and one minimum out of a sum leaves between
    [len - 2] times the minimum and [len - 2] times the maximum. *)
Lemma trimmed_sum_bounds (l : list Z) :
  l <> [] ->
  (Z.of_nat (length l) - 1) * min_Z l + max_Z l <= sum_Z l
    <= (Z.of_nat (length l) - 1) * max_Z l + min_Z l.
Proof.
  induction l as [|x l IH]; [congruence|intros _].
  destruct l as [|y l].
  - cbn. lia.
  - specialize (IH ltac:(discriminate)).
    rewrite max_Z_cons, min_Z_cons by discriminate.
    assert (Hmm : min_Z (y :: l) <= max_Z (y :: l)).
    { pose proof (max_Z_elem (y :: l) ltac:(discriminate)) as He.
      apply (min_Z_lower _ _ He). }
    change (sum_Z (x :: y :: l)) with (x + sum_Z (y :: l)).
    replace (Z.of_nat (length (x :: y :: l)) - 1)
      with (Z.of_nat (length (y :: l))) by (cbn [length]; lia).
    set (n := Z.of_nat (length (y :: l))) in *.
    assert (Hn : 1 <= n) by (unfold n; cbn [length]; lia).
    destruct (Z.max_spec x (max_Z (y :: l))) as [[? ->]|[? ->]];
      destruct (Z.min_spec x (min_Z (y :: l))) as [[? ->]|[? ->]]; nia.
Qed.

(** X11.  Run in exact arithmetic on a buffer of at least three slots whose
    trimmed sum fits an [int], [filter_avg] lies between the smallest and
    the largest stored value. *)
Theorem filter_avg_between_min_and_max fb L :
  fb_wf L fb -> 3 <= L <= INT_MAX ->
  INT_MIN <= sum_Z (data fb) - max_Z (data fb) - min_Z (data fb) <= INT_MAX ->
  exists r : R,
    filter_avg (ops := exact_reals) fb = Some r /\
    (IZR (min_Z (data fb)) <= r <= IZR (max_Z (data fb)))%R.
Proof.
  intros Hwf HL Hfit.
  rewrite (filter_avg_value fb L Hwf) by lia.
  rewrite to_int_small by exact Hfit.
  rewrite to_size_t_small by (unfold INT_MAX in HL; lia).
  eexists. split; [reflexivity|]. cbn [d_div d_of_Z exact_reals].
  destruct Hwf as [_ Hlen].
  assert (Hne : data fb <> []) by (intros E; rewrite E in Hlen; simpl in Hlen; lia).
  pose proof (trimmed_sum_bounds (data fb) Hne) as [Hlo Hhi].
  rewrite Hlen in Hlo, Hhi.
  set (T := sum_Z (data fb) - max_Z (data fb) - min_Z (data fb)) in *.
  assert (Hc : (0 < IZR (L - 2))%R) by (apply IZR_lt; lia).
  split; apply (Rmult_le_reg_r (IZR (L - 2)) _ _ Hc);
    unfold Rdiv; rewrite Rmult_assoc, Rinv_l, Rmult_1_r by lra;
    rewrite <- mult_IZR; apply IZR_le; lia.
Qed.

(** X12.  Lengths below three, which [filter_avg] does not guard against: with
    no slot it reads outside the array; with one slot [a] it divides
    [-a] by [2^64 - 1], the [size_t] value of [1 - 2]; with two slots it
    divides 0 by 0 whatever they hold, which in binary64 is a NaN. *)
Theorem filter_avg_short_buffers :
  (forall D (ops : DoubleOps D) n loc, filter_avg (mk_fb [] n loc) = None) /\
  (forall D (ops : DoubleOps D) a loc,
     filter_avg (mk_fb [a] 1 loc)
       = Some (d_div (d_of_Z (to_int (- a))) (d_of_Z (2 ^ 64 - 1)))) /\
  (forall D (ops : DoubleOps D) a b loc,
     filter_avg (mk_fb [a; b] 2 loc) = Some (d_div (d_of_Z 0) (d_of_Z 0))) /\
  (forall a b loc,
     exists x, filter_avg (ops := binary64) (mk_fb [a; b] 2 loc) = Some x /\
               PrimFloat.is_nan x = true).
Proof.
  assert (H2 : forall D (ops : DoubleOps D) a b loc,
            filter_avg (mk_fb [a; b] 2 loc) = Some (d_div (d_of_Z 0) (d_of_Z 0))).
  { intros D ops a b loc.
    rewrite (filter_avg_value _ 2) by (unfold INT_MAX; split; simpl; lia).
    cbn [data sum_Z max_Z min_Z foldr].
    replace (a + (b + 0) - Z.max b a - Z.min b a) with 0 by lia.
    reflexivity. }
  split; [reflexivity|]. split; [|split; [exact H2|]].
  - intros D ops a loc.
    rewrite (filter_avg_value _ 1) by (unfold INT_MAX; split; simpl; lia).
    cbn [data sum_Z max_Z min_Z foldr].
    replace (a + 0 - a - a) with (- a) by lia. reflexivity.
  - intros a b loc. rewrite H2. eexists. split; reflexivity.
Qed.

(* ===================================================================== *)
(** * Further properties of the statistics helpers *)

(** The accumulation loop when the array is longer than [cnt]: the
    elements from the current index up to [cnt - 1] are added, [tail] is
    never read. *)
Lemma sum_loop16_prefix {D} {ops : DoubleOps D} (rest pre tail : list Z) :
  forall fuel vals cnt (term : Z -> D) acc,
  vals = pre ++ rest ++ tail ->
  cnt = Z.of_nat (length pre + length rest) -> cnt <= INT_MAX ->
  (length rest < fuel)%nat ->
  sum_loop16 fuel vals cnt (Z.of_nat (length pre)) term acc
    = Some (foldl (fun a v => d_add a (term v)) acc rest).
Proof.
  revert pre. induction rest as [|v rest IH];
    intros pre fuel vals cnt term acc Hvals Hcnt Hmax Hfuel;
    (destruct fuel as [|fuel]; [simpl in Hfuel; lia|]);
    cbn [sum_loop16].
  - simpl in Hcnt.
    destruct (Z.ltb_spec (Z.of_nat (length pre)) cnt); [lia|]. reflexivity.
  - cbn [length] in Hcnt.
    destruct (Z.ltb_spec (Z.of_nat (length pre)) cnt); [|lia].
    rewrite array_get_lookup. rewrite Hvals at 1.
    rewrite lookup_app_r by lia. rewrite Nat.sub_diag. cbn [app lookup list_lookup].
    rewrite to_int_small by (unfold INT_MIN, INT_MAX in *; lia).
    replace (Z.of_nat (length pre) + 1) with (Z.of_nat (length (pre ++ [v])))
      by (rewrite length_app; simpl; lia).
    rewrite (IH (pre ++ [v])); try assumption.
    + reflexivity.
    + rewrite <- app_assoc. exact Hvals.
    + rewrite length_app. simpl. lia.
    + simpl in Hfuel. lia.
Qed.

(** The accumulation loop when [cnt] is larger than the array: it runs
    off the end. *)
Lemma sum_loop16_overrun {D} {ops : DoubleOps D} (rest pre : list Z) :
  forall fuel vals cnt (term : Z -> D) acc,
  vals = pre ++ rest ->
  Z.of_nat (length vals) < cnt -> cnt <= INT_MAX ->
  (length rest < fuel)%nat ->
  sum_loop16 fuel vals cnt (Z.of_nat (length pre)) term acc = None.
Proof.
  revert pre. induction rest as [|v rest IH];
    intros pre fuel vals cnt term acc Hvals Hcnt Hmax Hfuel;
    (destruct fuel as [|fuel]; [simpl in Hfuel; lia|]);
    cbn [sum_loop16].
  - assert (Hl : length vals = length pre)
      by (rewrite Hvals, length_app; simpl; lia).
    destruct (Z.ltb_spec (Z.of_nat (length pre)) cnt); [|lia].
    rewrite array_get_lookup. rewrite lookup_ge_None_2 by lia. reflexivity.
  - assert (Hl : length vals = (length pre + S (length rest))%nat)
      by (rewrite Hvals, length_app; reflexivity).
    destruct (Z.ltb_spec (Z.of_nat (length pre)) cnt); [|lia].
    rewrite array_get_lookup. rewrite Hvals at 1.
    rewrite lookup_app_r by lia. rewrite Nat.sub_diag. cbn [lookup list_lookup].
    rewrite to_int_small by (unfold INT_MIN, INT_MAX in *; lia).
    replace (Z.of_nat (length pre) + 1) with (Z.of_nat (length (pre ++ [v])))
      by (rewrite length_app; simpl; lia).
    apply (IH (pre ++ [v])); try assumption.
    + rewrite <- app_assoc. exact Hvals.
    + simpl in Hfuel. lia.
Qed.

(** X14.  [average16] and [stdev16] look at the first [cnt] elements only: for
    [0 <= cnt <= length vals] the results are those on the array cut
    down to its first [cnt] elements, in any [double] arithmetic. *)
Theorem statistics_use_first_cnt {D} {ops : DoubleOps D} (vals : list Z) cnt :
  0 <= cnt <= Z.of_nat (length vals) -> cnt <= INT_MAX ->
  average16 vals cnt = average16 (take (Z.to_nat cnt) vals) cnt /\
  stdev16 vals cnt = stdev16 (take (Z.to_nat cnt) vals) cnt.
Proof.
  intros Hcnt Hmax.
  assert (Hlen : length (take (Z.to_nat cnt) vals) = Z.to_nat cnt)
    by (rewrite length_take; lia).
  assert (Hloop : forall (term : Z -> D) acc,
            sum_loop16 (S (length vals)) vals cnt 0 term acc
            = sum_loop16 (S (length (take (Z.to_nat cnt) vals)))
                (take (Z.to_nat cnt) vals) cnt 0 term acc).
  { intros term acc.
    rewrite (sum_loop16_prefix (take (Z.to_nat cnt) vals) []
               (drop (Z.to_nat cnt) vals) (S (length vals)) vals cnt);
      [|simpl; rewrite take_drop; reflexivity|simpl; lia|exact Hmax|lia].
    rewrite (sum_loop16_scan (take (Z.to_nat cnt) vals) []
               (S (length (take (Z.to_nat cnt) vals)))
               (take (Z.to_nat cnt) vals) cnt);
      [reflexivity|reflexivity|lia|exact Hmax|lia]. }
  assert (Havg : average16 vals cnt = average16 (take (Z.to_nat cnt) vals) cnt).
  { unfold average16. rewrite Hloop. reflexivity. }
  split; [exact Havg|].
  unfold stdev16. rewrite Havg.
  destruct (average16 (take (Z.to_nat cnt) vals) cnt); [|reflexivity].
  rewrite Hloop. reflexivity.
Qed.

(** X15.  The counts the helpers do not guard against.  With [cnt <= 0] no
    element is read and the results are [0 / cnt] and [sqrt(0 / cnt)],
    NaNs in binary64 when [cnt = 0]; with [cnt] beyond the array the
    loops read past its end. *)
Theorem statistics_count_edges :
  (forall D (ops : DoubleOps D) (vals : list Z) cnt,
     cnt <= 0 ->
     average16 vals cnt = Some (d_div (d_of_Z 0) (d_of_Z cnt)) /\
     stdev16 vals cnt = Some (d_sqrt (d_div (d_of_Z 0) (d_of_Z cnt)))) /\
  (forall (vals : list Z),
     exists x y,
       average16 (ops := binary64) vals 0 = Some x /\
       stdev16 (ops := binary64) vals 0 = Some y /\
       PrimFloat.is_nan x = true /\ PrimFloat.is_nan y = true) /\
  (forall D (ops : DoubleOps D) (vals : list Z) cnt,
     Z.of_nat (length vals) < cnt <= INT_MAX ->
     average16 vals cnt = None /\ stdev16 vals cnt = None).
Proof.
  assert (H0 : forall D (ops : DoubleOps D) (vals : list Z) cnt,
            cnt <= 0 ->
            average16 vals cnt = Some (d_div (d_of_Z 0) (d_of_Z cnt)) /\
            stdev16 vals cnt = Some (d_sqrt (d_div (d_of_Z 0) (d_of_Z cnt)))).
  { intros D ops vals cnt Hcnt.
    unfold stdev16, average16. cbn [sum_loop16].
    destruct (Z.ltb_spec 0 cnt); [lia|]. split; reflexivity. }
  split; [exact H0|]. split.
  - intros vals. destruct (H0 _ binary64 vals 0 ltac:(lia)) as [-> ->].
    eexists _, _. repeat split; reflexivity.
  - intros D ops vals cnt [Hlt Hmax].
    assert (Hnone : forall (term : Z -> D) acc,
              sum_loop16 (S (length vals)) vals cnt 0 term acc = None).
    { intros term acc.
      apply (sum_loop16_overrun vals []); [reflexivity|exact Hlt|exact Hmax|lia]. }
    unfold stdev16, average16. rewrite Hnone. split; reflexivity.
Qed.

Lemma sum_R_IZR (l : list Z) : sum_R (map IZR l) = IZR (sum_Z l).
Proof.
  unfold sum_R, sum_Z. induction l as [|x l IH]; [reflexivity|].
  cbn [map foldr]. rewrite IH, plus_IZR. reflexivity.
Qed.

Lemma sum_R_zero (f : Z -> R) (l : list Z) :
  (forall x, x ∈ l -> f x = 0%R) -> sum_R (map f l) = 0%R.
Proof.
  unfold sum_R. induction l as [|x l IH]; intros H; [reflexivity|].
  cbn [map foldr]. rewrite IH by (intros y Hy; apply H; right; exact Hy).
  rewrite (H x) by left. lra.
Qed.

(** X16.  In exact arithmetic on a non-empty array: the mean lies between the
    smallest and the largest value, the standard deviation is not
    negative, and on an array whose values are all one value [v] the mean
    is [v] and the standard deviation 0. *)
Theorem statistics_exact_bounds (vals : list Z) cnt :
  cnt = Z.of_nat (length vals) -> 1 <= cnt <= INT_MAX ->
  exists avg sd : R,
    average16 (ops := exact_reals) vals cnt = Some avg /\
    stdev16 (ops := exact_reals) vals cnt = Some sd /\
    (IZR (min_Z vals) <= avg <= IZR (max_Z vals))%R /\
    (0 <= sd)%R /\
    (forall v, (forall x, x ∈ vals -> x = v) -> avg = IZR v /\ sd = 0%R).
Proof.
  intros Hcnt Hrange.
  rewrite (average16_exact vals cnt Hcnt) by lia.
  rewrite (stdev16_exact vals cnt Hcnt) by lia.
  exists (mean_R vals), (pstdev_R vals).
  split; [reflexivity|]. split; [reflexivity|].
  assert (Hne : vals <> []) by (intros ->; simpl in Hcnt; lia).
  assert (Hc : (0 < IZR (Z.of_nat (length vals)))%R) by (apply IZR_lt; lia).
  assert (Hmean : (IZR (min_Z vals) <= mean_R vals <= IZR (max_Z vals))%R).
  { pose proof (trimmed_sum_bounds vals Hne) as [Hlo Hhi].
    assert (Hmm : min_Z vals <= max_Z vals)
      by (apply min_Z_lower, max_Z_elem, Hne).
    unfold mean_R. rewrite sum_R_IZR.
    split; apply (Rmult_le_reg_r _ _ _ Hc);
      unfold Rdiv; rewrite Rmult_assoc, Rinv_l, Rmult_1_r by lra;
      rewrite <- mult_IZR; apply IZR_le; nia. }
  split; [exact Hmean|]. split; [apply sqrt_pos|].
  intros v Hall.
  assert (Hmin : min_Z vals = v) by (apply Hall, min_Z_elem, Hne).
  assert (Hmax : max_Z vals = v) by (apply Hall, max_Z_elem, Hne).
  rewrite Hmin, Hmax in Hmean.
  assert (Hv : mean_R vals = IZR v) by lra.
  split; [exact Hv|].
  unfold pstdev_R. rewrite sum_R_zero.
  - unfold Rdiv. rewrite Rmult_0_l. apply sqrt_0.
  - intros x Hx. rewrite Hv, (Hall x Hx). lra.
Qed.

(* ===================================================================== *)
(** * The entry point *)

(** Everything a call of [read_mcp3301_single] does: one [read], no
    [ioctl], no [close], the device and the saved settings untouched, and
    a result that is a 13-bit code or the sentinel. *)
Lemma read_mcp3301_single_run env fd w :
  exists new,
    trace (snd (read_mcp3301_single env fd w)) = trace w ++ new /\
    length (reads_of new) = 1%nat /\
    ioctls_of new = [] /\ closes_of new = [] /\
    device (snd (read_mcp3301_single env fd w)) = device w /\
    spi_settings_orig (snd (read_mcp3301_single env fd w))
      = spi_settings_orig w /\
    is_reading (fst (read_mcp3301_single env fd w)).
Proof.
  destruct (env_read env (trace w) fd) as [c [b0 b1]] eqn:E.
  destruct (Z.eq_dec c 2) as [->|Hc].
  - pose proof (read_mcp3301_single_success env fd w b0 b1 E) as Hval.
    pose proof (reconstructed_range b0 b1) as Hr.
    assert (Hrd : is_reading (fst (read_mcp3301_single env fd w))).
    { rewrite Hval. left. destruct (Z.land (byte_val b0) 16 =? 0); lia. }
    revert Hrd.
    unfold read_mcp3301_single, spi_read_two_bytes, sys_read, bind, printf,
      emit, pure.
    rewrite E. cbn [fst snd negb Z.eqb Pos.eqb trace device spi_settings_orig].
    intros Hrd. eexists. split; [reflexivity|].
    repeat split; try reflexivity. exact Hrd.
  - assert (Hne : fst (env_read env (trace w) fd) <> 2) by (rewrite E; exact Hc).
    pose proof (read_mcp3301_single_failure env fd w Hne) as Hval.
    assert (Hrd : is_reading (fst (read_mcp3301_single env fd w)))
      by (rewrite Hval; right; reflexivity).
    revert Hrd.
    unfold read_mcp3301_single, spi_read_two_bytes, sys_read, bind, printf,
      emit, pure.
    rewrite E. cbn [fst snd].
    rewrite (Z.eqb_sym 2), (proj2 (Z.eqb_neq c 2)) by exact Hc.
    cbn [fst snd negb trace device spi_settings_orig].
    intros Hrd. eexists. split; [rewrite <- app_assoc; reflexivity|].
    repeat split; try reflexivity. exact Hrd.
Qed.

(** On a buffer that holds readings only, the [int] arithmetic of
    [filter_avg] stays in range as long as the buffer has no more than
    65538 slots. *)
Lemma filter_avg_readings {D} {ops : DoubleOps D} fb L :
  fb_wf L fb -> 3 <= L <= 65538 ->
  Forall is_reading (data fb) ->
  filter_avg fb =
    Some (d_div
            (d_of_Z (sum_Z (data fb) - max_Z (data fb) - min_Z (data fb)))
            (d_of_Z (L - 2))).
Proof.
  intros Hwf HL Hall.
  rewrite (filter_avg_value fb L Hwf) by (unfold INT_MAX; lia).
  rewrite to_size_t_small by lia.
  destruct Hwf as [_ Hlen].
  assert (Hne : data fb <> [])
    by (intros E; rewrite E in Hlen; simpl in Hlen; lia).
  pose proof (trimmed_sum_bounds (data fb) Hne) as [Hlo Hhi].
  rewrite Hlen in Hlo, Hhi.
  rewrite Forall_forall in Hall.
  pose proof (Hall _ (max_Z_elem _ Hne)) as HM.
  pose proof (Hall _ (min_Z_elem _ Hne)) as Hm.
  unfold is_reading in HM, Hm.
  rewrite to_int_small; [reflexivity|].
  unfold INT_MIN, INT_MAX. nia.
Qed.


(** One iteration from a state that satisfies [loop_inv]. *)
Lemma main_iteration_keeps {D} {ops : DoubleOps D} env clock spi_fd t_init
    (st : main_state D) w :
  loop_inv st ->
  exists st' w',
    main_iteration env clock spi_fd t_init st w = (Some st', w') /\
    loop_inv st' /\
    location (st_fb st') = (location (st_fb st) + 1) mod 16 /\
    data (st_fb st')
      = <[Z.to_nat (location (st_fb st)) := int_val (st_mt st')]> (data (st_fb st)) /\
    is_reading (int_val (st_mt st')) /\
    st_loops st' = to_int (st_loops st + 1) /\
    st_out st' = st_out st ++
      [mk_line (timestamp (st_mt st')) (int_val (st_mt st'))
         (d_div (d_of_Z (sum_Z (data (st_fb st')) - max_Z (data (st_fb st'))
                         - min_Z (data (st_fb st'))))
                (d_of_Z 14))] /\
    device w' = device w /\ spi_settings_orig w' = spi_settings_orig w /\
    exists new,
      trace w' = trace w ++ new /\ length (reads_of new) = 1%nat /\
      ioctls_of new = [] /\ closes_of new = [].
Proof.
  intros (Hwf & Hinv & Hall).
  destruct (read_mcp3301_single_run env spi_fd w)
    as (new & Htr & Hreads & Hio & Hcl & Hdev & Horig & Hrd).
  unfold main_iteration, read_mcp3301_measurement, bind, sys_clock, pure.
  cbn [fst snd int_val timestamp].
  set (v := fst (read_mcp3301_single env spi_fd w)) in *.
  set (w1 := snd (read_mcp3301_single env spi_fd w)) in *.
  assert (H16 : 1 <= 16 <= INT_MAX) by (unfold INT_MAX; lia).
  rewrite (fb_push_spec 16 (st_fb st) v H16 Hwf Hinv).
  set (fb' := {| data := <[Z.to_nat (location (st_fb st)) := v]> (data (st_fb st));
                 data_len := 16;
                 location := (location (st_fb st) + 1) mod 16 |}).
  assert (Hwf' : fb_wf 16 fb').
  { destruct Hwf as [_ Hd]. split; [reflexivity|].
    unfold fb'. cbn [data]. rewrite length_insert. exact Hd. }
  assert (Hall' : Forall is_reading (data fb')).
  { unfold fb'. cbn [data]. apply Forall_insert; assumption. }
  rewrite (filter_avg_readings fb' 16 Hwf' ltac:(lia) Hall').
  change (16 - 2) with 14.
  eexists _, _. split; [reflexivity|].
  cbn [st_fb st_loops st_out st_mt int_val timestamp].
  pose proof (Z.mod_pos_bound (location (st_fb st) + 1) 16 ltac:(lia)).
  split; [split; [exact Hwf'|split; [unfold fb_inv, fb'; cbn; lia|exact Hall']]|].
  repeat split; try reflexivity; try assumption.
  exists new. repeat split; assumption.
Qed.

(** [n] iterations from a state that satisfies [loop_inv]. *)
Lemma main_loop_keeps {D} {ops : DoubleOps D} env clock spi_fd t_init
    (st : main_state D) (n : nat) : forall w,
  loop_inv st ->
  exists st' w',
    main_loop env clock n spi_fd t_init st w = (Some st', w') /\
    loop_inv st' /\
    location (st_fb st') = (location (st_fb st) + Z.of_nat n) mod 16 /\
    (to_int (st_loops st) = st_loops st ->
     st_loops st' = to_int (st_loops st + Z.of_nat n)) /\
    (exists lines,
       st_out st' = st_out st ++ lines /\ length lines = n /\
       Forall (fun l => is_reading (line_raw l)) lines /\
       forall l, last lines = Some l ->
         line_raw l = int_val (st_mt st') /\
         line_timestamp l = timestamp (st_mt st') /\
         line_filtered l =
           d_div (d_of_Z (sum_Z (data (st_fb st')) - max_Z (data (st_fb st'))
                          - min_Z (data (st_fb st'))))
                 (d_of_Z 14) /\
         data (st_fb st')
           !! Z.to_nat ((location (st_fb st) + Z.of_nat n - 1) mod 16)
           = Some (line_raw l)) /\
    device w' = device w /\ spi_settings_orig w' = spi_settings_orig w /\
    exists new,
      trace w' = trace w ++ new /\ length (reads_of new) = n /\
      ioctls_of new = [] /\ closes_of new = [].
Proof.
  induction n as [|n IH]; intros w Hst.
  - exists st, w. split; [reflexivity|]. split; [exact Hst|].
    destruct Hst as (Hwf & Hinv & _). destruct Hwf as [Hlen _].
    unfold fb_inv in Hinv. rewrite Hlen in Hinv.
    split; [rewrite Z.add_0_r, Z.mod_small by lia; reflexivity|].
    split; [intros Hint; rewrite Z.add_0_r; symmetry; exact Hint|].
    split.
    { exists []. rewrite app_nil_r. repeat split; try constructor;
        intros; discriminate. }
    split; [reflexivity|]. split; [reflexivity|].
    exists []. rewrite app_nil_r. repeat split.
  - destruct (IH w Hst)
      as (st1 & w1 & Hrun & Hinv1 & Hloc1 & Hloops1 & (lines & Hout1 & Hlen1 & Hraw1 & _)
          & Hdev1 & Horig1 & new1 & Htr1 & Hreads1 & Hio1 & Hcl1).
    destruct (main_iteration_keeps env clock spi_fd t_init st1 w1 Hinv1)
      as (st2 & w2 & Hit & Hinv2 & Hloc2 & Hdata2 & Hrd2 & Hloops2 & Hout2
          & Hdev2 & Horig2 & new2 & Htr2 & Hreads2 & Hio2 & Hcl2).
    exists st2, w2.
    split.
    { cbn [main_loop]. unfold bind. rewrite Hrun. cbn [fst snd]. exact Hit. }
    split; [exact Hinv2|].
    split.
    { rewrite Hloc2, Hloc1, Zplus_mod_idemp_l. f_equal. lia. }
    split.
    { intros Hint. rewrite Hloops2, (Hloops1 Hint), to_int_add_l.
      f_equal. lia. }
    split.
    { eexists (lines ++ [_]). split; [rewrite Hout2, Hout1, <- app_assoc; reflexivity|].
      split; [rewrite length_app; simpl; lia|].
      split; [apply Forall_app; split;
                [exact Hraw1|constructor; [exact Hrd2|constructor]]|].
      intros ln Hln. rewrite last_snoc in Hln. injection Hln as <-.
      cbn [line_raw line_timestamp line_filtered].
      repeat split.
      rewrite Hdata2.
      replace ((location (st_fb st) + Z.of_nat (S n) - 1) mod 16)
        with (location (st_fb st1)) by (rewrite Hloc1; f_equal; lia).
      apply list_lookup_insert_eq.
      destruct Hinv1 as ([Hl1 Hd1] & Hi1 & _). unfold fb_inv in Hi1. lia. }
    split; [rewrite Hdev2; exact Hdev1|].
    split; [rewrite Horig2; exact Horig1|].
    exists (new1 ++ new2). rewrite Htr2, Htr1, <- app_assoc.
    rewrite reads_of_app, ioctls_of_app, closes_of_app, length_app.
    rewrite Hio1, Hio2, Hcl1, Hcl2, Hreads1, Hreads2.
    repeat split. lia.
Qed.

(** X17.  [main] gives up whenever [spi_init] returns 0 or less, and that
    includes a successful initialisation on descriptor 0: it prints its
    two failure lines and returns [EXIT_FAILURE] without sampling; in the
    descriptor-0 case the device is left with the desired settings, the
    settings it had before stay in [spi_settings_orig] and are not written
    back, and the handle is not closed. *)
Theorem main_rejects_descriptor_zero {D} {ops : DoubleOps D} env clock w n :
  let init := spi_init env device_path spi_settings_desired w in
  fst init <= 0 ->
  exists w',
    main (D := D) env clock n w = (MainExit EXIT_FAILURE, w') /\
    trace w' = trace (snd init) ++
      [EvPrintf "main: could not initialize SPI bus\n" [];
       EvPrintf "Done with errors\n" []] /\
    (fst init = 0 ->
       device w' = spi_settings_desired /\
       spi_settings_orig w' = device w /\
       closes_of (trace w') = closes_of (trace w)).
Proof.
  cbv zeta. intros Hle.
  unfold main, bind, sys_clock, printf, emit, pure. cbn [fst snd].
  rewrite Z.geb_leb.
  destruct (Z.leb_spec (fst (spi_init env device_path spi_settings_desired w)) 0)
    as [_|Hgt]; [|lia].
  cbn [fst snd trace device spi_settings_orig].
  eexists. split; [reflexivity|]. cbn [trace device spi_settings_orig].
  split; [rewrite <- app_assoc; reflexivity|].
  intros H0.
  destruct (spi_init_success env device_path spi_settings_desired w ltac:(lia))
    as (_ & Horig & Hdev & new & Htr & Hcl).
  split; [exact Hdev|]. split; [exact Horig|].
  rewrite Htr.
  change (EvOpen device_path (env_open env (trace w) device_path) :: new)
    with ([EvOpen device_path (env_open env (trace w) device_path)] ++ new).
  rewrite !closes_of_app, Hcl. simpl. rewrite !app_nil_r. reflexivity.
Qed.

(** X18.  Once [spi_init] has returned a positive handle, [main] never leaves
    its loop and never reads or stores outside the filter buffer.  After
    [n] iterations it
    has printed [n] lines and made [n] reads and nothing else on the
    handle (no [ioctl], no [close]); every raw value printed is a 13-bit
    code or the sentinel; the buffer has its sixteen slots, all readings,
    and its write position is [n mod 16]; the line printed last shows the
    reading just stored and the trimmed sum of the buffer divided by 14,
    with no overflow; the loop counter is [n] wrapped to an [int]. *)
Theorem main_sampling_loop {D} {ops : DoubleOps D} env clock w n :
  let init := spi_init env device_path spi_settings_desired w in
  0 < fst init ->
  exists st w',
    main (D := D) env clock n w = (MainRunning st, w') /\
    length (st_out st) = n /\
    Forall (fun l => is_reading (line_raw l)) (st_out st) /\
    (forall l, last (st_out st) = Some l ->
       line_raw l = int_val (st_mt st) /\
       line_filtered l =
         d_div (d_of_Z (sum_Z (data (st_fb st)) - max_Z (data (st_fb st))
                        - min_Z (data (st_fb st))))
               (d_of_Z 14) /\
       data (st_fb st) !! Z.to_nat ((Z.of_nat n - 1) mod 16)
         = Some (line_raw l)) /\
    fb_wf 16 (st_fb st) /\
    location (st_fb st) = Z.of_nat n mod 16 /\
    Forall is_reading (data (st_fb st)) /\
    st_loops st = to_int (Z.of_nat n) /\
    device w' = spi_settings_desired /\
    exists new,
      trace w' = trace (snd init) ++ new /\
      length (reads_of new) = n /\ ioctls_of new = [] /\ closes_of new = [].
Proof.
  cbv zeta. intros Hpos.
  destruct (spi_init_success env device_path spi_settings_desired w ltac:(lia))
    as (_ & _ & Hdev & _).
  unfold main, bind, sys_clock, pure. cbn [fst snd].
  rewrite Z.geb_leb.
  destruct (Z.leb_spec (fst (spi_init env device_path spi_settings_desired w)) 0)
    as [Hle|_]; [lia|].
  set (st0 := mk_state (fb_new 16) 0 (d_of_Z 0) (mk_measurement 0 (d_of_Z 0)) []).
  assert (H16 : 0 <= 16 <= INT_MAX) by (unfold INT_MAX; lia).
  assert (Hinv0 : loop_inv st0).
  { split; [apply fb_new_wf, H16|]. split; [unfold fb_inv; cbn; lia|].
    cbn [st0 st_fb]. rewrite fb_new_data by exact H16.
    apply Forall_replicate. left. lia. }
  destruct (main_loop_keeps env clock
              (fst (spi_init env device_path spi_settings_desired w))
              (clock (trace w)) st0 n
              (snd (spi_init env device_path spi_settings_desired w)) Hinv0)
    as (st & w' & Hrun & (Hwf & Hinv & Hall) & Hloc & Hloops
        & (lines & Hout & Hlen & Hraw & Hlast) & Hdev' & _ & new & Htr & Hreads
        & Hio & Hcl).
  rewrite Hrun. cbn [fst snd]. exists st, w'.
  cbn [st0 st_out st_fb st_loops location fb_new] in Hout, Hloc, Hloops, Hlast.
  rewrite app_nil_l in Hout. rewrite Z.add_0_l in Hloc, Hloops.
  split; [reflexivity|]. rewrite Hout.
  split; [exact Hlen|]. split; [exact Hraw|].
  split.
  { intros l Hl. destruct (Hlast l Hl) as (H1 & _ & H3 & H4).
    rewrite Z.add_0_l in H4. repeat split; assumption. }
  split; [exact Hwf|]. split; [exact Hloc|]. split; [exact Hall|].
  split; [apply Hloops; reflexivity|].
  split; [rewrite Hdev'; exact Hdev|].
  exists new. repeat split; assumption.
Qed.

(* ===================================================================== *)
(** * The further theorems at concrete inputs *)

(** Settles a closed comparison by evaluating it. *)
Ltac evaluate :=
  vm_compute; first [reflexivity | let H := fresh in intros H; discriminate H].

Lemma spi_write_then_read_round_trip_witness :
  fst (spi_write_settings env_ok 3 spi_settings_desired world0) = 0 /\
  fst (fst (spi_read_settings env_ok 3 (mk_settings 9 9 9 9)
              (snd (spi_write_settings env_ok 3 spi_settings_desired world0))))
    = 0 /\
  snd (fst (spi_read_settings env_ok 3 (mk_settings 9 9 9 9)
              (snd (spi_write_settings env_ok 3 spi_settings_desired world0))))
    = spi_settings_desired.
Proof.
  split; [reflexivity|]. split; [reflexivity|].
  apply (spi_write_then_read_round_trip env_ok 3 spi_settings_desired
           (mk_settings 9 9 9 9) world0); reflexivity.
Defined.

Lemma spi_init_then_shutdown_restores_witness :
  0 <= fst (spi_init env_ok device_path spi_settings_desired world0) /\
  device
    (snd (spi_shutdown env_ok
            (fst (spi_init env_ok device_path spi_settings_desired world0))
            (snd (spi_init env_ok device_path spi_settings_desired world0))))
    = device world0.
Proof.
  split; [evaluate|].
  apply (spi_init_then_shutdown_restores env_ok device_path
           spi_settings_desired world0).
  - evaluate.
  - reflexivity.
Defined.

Lemma spi_init_twice_loses_original_witness :
  0 <= fst (spi_init env_ok device_path spi_settings_desired world0) /\
  0 <= fst (spi_init env_ok device_path (mk_settings 0 0 16 1000)
              (snd (spi_init env_ok device_path spi_settings_desired world0))) /\
  spi_settings_orig
    (snd (spi_init env_ok device_path (mk_settings 0 0 16 1000)
            (snd (spi_init env_ok device_path spi_settings_desired world0))))
    = spi_settings_desired.
Proof.
  split; [evaluate|]. split; [evaluate|].
  apply (spi_init_twice_loses_original env_ok device_path device_path
           spi_settings_desired (mk_settings 0 0 16 1000) world0);
    evaluate.
Defined.

Lemma read_mcp3301_single_sign_extends_witness :
  env_read env_ok (trace world0) 3 = (2, (x11, x00)) /\
  fst (read_mcp3301_single env_ok 3 world0)
    = wrap_signed 13 (byte_val x11 * 256 + byte_val x00).
Proof.
  split; [reflexivity|].
  apply (read_mcp3301_single_sign_extends env_ok 3 world0 x11 x00 eq_refl).
Defined.

Lemma read_mcp3301_single_bijective_witness :
  env_read (env_fixed 3 (fun _ => 0) (2, (x1f, xfb))) (trace world0) 3
    = (2, (x1f, xfb)) /\
  -4096 <= -5 <= 4095 /\ (x1f, xfb) = mcp3301_encode (-5) /\
  fst (read_mcp3301_single (env_fixed 3 (fun _ => 0) (2, (x1f, xfb))) 3 world0)
    = -5.
Proof.
  split; [reflexivity|]. split; [lia|]. split; [reflexivity|].
  apply (proj1 (read_mcp3301_single_bijective
                  (env_fixed 3 (fun _ => 0) (2, (x1f, xfb))) 3 world0
                  x1f xfb eq_refl) (-5)); [lia|reflexivity].
Defined.

Lemma fb_push_all_keeps_last_witness :
  1 <= 3 <= INT_MAX /\
  exists fb',
    fb_push_all (fb_new 3) [11; 22; 33; 44] = Some fb' /\
    location fb' = Z.of_nat (length [11; 22; 33; 44]) mod 3.
Proof.
  assert (H3 : 1 <= 3 <= INT_MAX) by (unfold INT_MAX; lia).
  split; [exact H3|].
  destruct (fb_push_all_keeps_last 3 [11; 22; 33; 44] H3)
    as (fb' & Hrun & Hloc & _).
  exists fb'. split; [exact Hrun|exact Hloc].
Defined.

Lemma filter_avg_order_independent_witness :
  fb_wf 3 (mk_fb [3; 1; 2] 3 0) /\ fb_wf 3 (mk_fb [1; 2; 3] 3 1) /\
  1 <= 3 <= INT_MAX /\ [3; 1; 2] ≡ₚ [1; 2; 3] /\
  filter_avg (ops := binary64) (mk_fb [3; 1; 2] 3 0)
    = filter_avg (ops := binary64) (mk_fb [1; 2; 3] 3 1).
Proof.
  assert (H3 : 1 <= 3 <= INT_MAX) by (unfold INT_MAX; lia).
  assert (Hp : [3; 1; 2] ≡ₚ [1; 2; 3])
    by exact (Permutation_cons_append [1; 2] 3).
  split; [split; reflexivity|]. split; [split; reflexivity|].
  split; [exact H3|]. split; [exact Hp|].
  apply (filter_avg_order_independent (mk_fb [3; 1; 2] 3 0)
           (mk_fb [1; 2; 3] 3 1) 3); [split; reflexivity|split; reflexivity
                                     |exact H3|exact Hp].
Defined.

Lemma filter_avg_between_min_and_max_witness :
  fb_wf 16 spread_buffer /\ 3 <= 16 <= INT_MAX /\
  exists r : R,
    filter_avg (ops := exact_reals) spread_buffer = Some r /\
    (IZR (min_Z (data spread_buffer)) <= r <= IZR (max_Z (data spread_buffer)))%R.
Proof.
  assert (H16 : 3 <= 16 <= INT_MAX) by (unfold INT_MAX; lia).
  split; [split; reflexivity|]. split; [exact H16|].
  apply (filter_avg_between_min_and_max spread_buffer 16);
    [split; reflexivity|exact H16|unfold INT_MIN, INT_MAX; simpl; lia].
Defined.

Lemma statistics_use_first_cnt_witness :
  0 <= 3 <= Z.of_nat (length [2; 4; 4; 4; 5; 5; 7; 9]) /\ 3 <= INT_MAX /\
  average16 (ops := binary64) [2; 4; 4; 4; 5; 5; 7; 9] 3
    = average16 (ops := binary64) (take (Z.to_nat 3) [2; 4; 4; 4; 5; 5; 7; 9]) 3.
Proof.
  assert (H3 : 3 <= INT_MAX) by (unfold INT_MAX; lia).
  split; [simpl; lia|]. split; [exact H3|].
  apply (statistics_use_first_cnt [2; 4; 4; 4; 5; 5; 7; 9] 3);
    [simpl; lia|exact H3].
Defined.

Lemma statistics_exact_bounds_witness :
  3 = Z.of_nat (length [7; 7; 7]) /\ 1 <= 3 <= INT_MAX /\
  exists avg sd : R,
    average16 (ops := exact_reals) [7; 7; 7] 3 = Some avg /\
    stdev16 (ops := exact_reals) [7; 7; 7] 3 = Some sd /\
    (IZR (min_Z [7%Z; 7%Z; 7%Z]) <= avg <= IZR (max_Z [7%Z; 7%Z; 7%Z]))%R.
Proof.
  assert (H3 : 1 <= 3 <= INT_MAX) by (unfold INT_MAX; lia).
  split; [reflexivity|]. split; [exact H3|].
  destruct (statistics_exact_bounds [7; 7; 7] 3 eq_refl H3)
    as (avg & sd & Ha & Hs & Hb & _).
  exists avg, sd. split; [exact Ha|]. split; [exact Hs|exact Hb].
Defined.


Lemma main_rejects_descriptor_zero_witness :
  fst (spi_init env_fd0 device_path spi_settings_desired world0) <= 0 /\
  exists w',
    main (D := PrimFloat.float) env_fd0 clock_still 5 world0
      = (MainExit EXIT_FAILURE, w').
Proof.
  assert (H0 : fst (spi_init env_fd0 device_path spi_settings_desired world0) <= 0)
    by (evaluate).
  split; [exact H0|].
  destruct (main_rejects_descriptor_zero (D := PrimFloat.float)
              env_fd0 clock_still world0 5 H0) as (w' & Hrun & _).
  exists w'. exact Hrun.
Defined.

Lemma main_sampling_loop_witness :
  0 < fst (spi_init env_ok device_path spi_settings_desired world0) /\
  exists st w',
    main (D := PrimFloat.float) env_ok clock_still 20 world0
      = (MainRunning st, w') /\
    length (st_out st) = 20%nat /\
    location (st_fb st) = Z.of_nat 20 mod 16.
Proof.
  assert (H0 : 0 < fst (spi_init env_ok device_path spi_settings_desired world0))
    by evaluate.
  split; [exact H0|].
  destruct (main_sampling_loop (D := PrimFloat.float)
              env_ok clock_still world0 20 H0)
    as (st & w' & Hrun & Hlen & _ & _ & _ & Hloc & _).
  exists st, w'. split; [exact Hrun|]. split; [exact Hlen|exact Hloc].
Defined.
